(** * v8engine: the bridge between a Go host and an embedded V8 engine

    A shallow embedding of the bridge layer of BlazerodJS/v8engine:
    the C++ side (the functions exported through [v8engine.h]) and the Go
    side ([engine.go]).  The V8 engine itself is an external collaborator
    and appears as a record of primitives, [V8]; everything the bridge does
    with their results is modelled as the source writes it. *)

From stdpp Require Import gmap strings list pretty.

Local Open Scope Z_scope.

(** ** Machine integers and C strings *)

(** Two's complement wrap-around of an integer to [w] bits. *)
Definition wrap (w : Z) (z : Z) : Z :=
  (z + 2 ^ (w - 1)) `mod` 2 ^ w - 2 ^ (w - 1).

(** Conversion to a C [int] (32 bits), as [C.int(x)] does. *)
Definition C_int (z : Z) : Z := wrap 32 z.

(** Arithmetic on a Go [int] (64 bits on the supported platforms). *)
Definition Go_int (z : Z) : Z := wrap 64 z.

(** What a reader of a [char*] sees: the bytes before the first NUL. *)
Fixpoint c_str (s : string) : string :=
  match s with
  | EmptyString => EmptyString
  | String c r =>
      if Ascii.eqb c Ascii.zero then EmptyString else String c (c_str r)
  end.

(** A pointer is an address; the null pointer is address 0. *)
Definition nullptr : Z := 0.

(** ** The engine's values, as far as the bridge looks at them *)

Inductive Function := Fn (id : N).

Inductive Value :=
| Undefined
| FunctionValue (f : Function)
| ArrayBuffer (contents : list Byte.byte)
| Primitive (str : string).

Definition IsFunction (v : Value) : bool :=
  match v with FunctionValue _ => true | _ => false end.

(** A compiled classic script. *)
Record Script := { script_source : string; script_origin : string }.

(** A compiled module unit: its identity hash and the specifiers of its
    import requests ([GetModuleRequestsLength], [GetModuleRequest]). *)
Record JSModule := {
  GetIdentityHash : Z;
  GetModuleRequests : list string;
  module_origin : string
}.

(** The diagnostic message object of a caught exception: [ResourceName] is
    the string conversion of [GetScriptOrigin().ResourceName()]; line and
    start column are [Maybe<int>]. *)
Record Message := {
  ResourceName : string;
  GetLineNumber : option Z;
  GetStartColumn : option Z
}.

(** The state of a [TryCatch] that has caught something.  [Exception] and
    the stack trace are given by their [String::Utf8Value] conversions; a
    failed conversion has length 0, like the empty string. *)
Record TryCatch := {
  HasTerminated : bool;
  Exception : string;
  GetMessage : option Message;
  StackTrace : option string
}.

(** What the engine does when it executes code: the calls it makes, in
    order, to the host function [V8Engine.cb] (each with its arguments),
    and how the execution completes: with a value, or with an exception
    caught by the enclosing [TryCatch]. *)
Record Execution := {
  host_calls : list (list Value);
  completion : Value + TryCatch
}.

(** The primitives of the embedded engine. *)
Record V8 := {
  Script_Compile : string → string → Script + TryCatch;
  Script_Run : Script → Execution;
  CompileModule : string → string → JSModule + TryCatch;
  InstantiateModule :
    JSModule → (string → JSModule → option JSModule) → option bool;
  Module_Evaluate : JSModule → Execution;
  Function_Call : Function → list Value → Execution
}.

(** ** The structures of the bridge *)

(** [v8engine.h] *)
Record RtnError := {
  msg : option string;
  location : option string;
  stack : option string
}.

Record RtnValue := {
  value : Z;
  error : RtnError
}.

(** [m_ctx]: the callback slot and the two registries.  The isolate and
    the persistent context handle live inside the engine. *)
Record m_ctx := {
  m_ctx_cb : option Function;
  modules : gmap string JSModule;
  resolved : gmap Z (gmap string JSModule)
}.

(** [m_value]: a persistent value handle and the address of its context. *)
Record m_value := {
  m_value_ptr : Value;
  context : Z
}.

(** [engine.go]: a resolver maps (specifier, referrer) to a canonical name
    and a status.  A resolver is modelled by the answer it gives: what
    else it does on the host side, such as loading a module of its own
    before it answers, is a call of its own and not part of the call that
    asks. *)
Definition ModuleResolverCallback : Type := string → string → string * Z.

(** What the bridge does that an observer can see, in order. *)
Inductive event :=
| EvLock
| EvUnlock
| EvTableStore (token : Z)
| EvTableLoad (token : Z)
| EvTableDelete (token : Z)
| EvResolve (token : Z) (moduleName referrerName : string)
| EvCall (f : Function) (args : list Value).

(** The whole state: the package-level variables of the Go side, the C++
    heap of contexts and values, standard output (the argument of each
    [printf("%s\n", _)] that returned) and the trace. *)
Record World := {
  resolverTableLock : bool;
  nextResolverToken : Z;
  resolverFuncs : gmap Z (option ModuleResolverCallback);
  contexts : gmap Z m_ctx;
  values : gmap Z m_value;
  stdout : list (option string);
  trace : list event
}.

Definition set_lock (b : bool) (w : World) : World :=
  {| resolverTableLock := b; nextResolverToken := nextResolverToken w;
     resolverFuncs := resolverFuncs w; contexts := contexts w;
     values := values w; stdout := stdout w; trace := trace w |}.

Definition set_nextResolverToken (n : Z) (w : World) : World :=
  {| resolverTableLock := resolverTableLock w; nextResolverToken := n;
     resolverFuncs := resolverFuncs w; contexts := contexts w;
     values := values w; stdout := stdout w; trace := trace w |}.

Definition set_resolverFuncs
    (t : gmap Z (option ModuleResolverCallback)) (w : World) : World :=
  {| resolverTableLock := resolverTableLock w;
     nextResolverToken := nextResolverToken w;
     resolverFuncs := t; contexts := contexts w;
     values := values w; stdout := stdout w; trace := trace w |}.

Definition set_contexts (c : gmap Z m_ctx) (w : World) : World :=
  {| resolverTableLock := resolverTableLock w;
     nextResolverToken := nextResolverToken w;
     resolverFuncs := resolverFuncs w; contexts := c;
     values := values w; stdout := stdout w; trace := trace w |}.

Definition set_values (v : gmap Z m_value) (w : World) : World :=
  {| resolverTableLock := resolverTableLock w;
     nextResolverToken := nextResolverToken w;
     resolverFuncs := resolverFuncs w; contexts := contexts w;
     values := v; stdout := stdout w; trace := trace w |}.

Definition set_stdout (o : list (option string)) (w : World) : World :=
  {| resolverTableLock := resolverTableLock w;
     nextResolverToken := nextResolverToken w;
     resolverFuncs := resolverFuncs w; contexts := contexts w;
     values := values w; stdout := o; trace := trace w |}.

Definition set_trace (t : list event) (w : World) : World :=
  {| resolverTableLock := resolverTableLock w;
     nextResolverToken := nextResolverToken w;
     resolverFuncs := resolverFuncs w; contexts := contexts w;
     values := values w; stdout := stdout w; trace := t |}.

(** ** A state monad with failure

    [None] is an execution that does not return: undefined behaviour, a
    failed [assert] (the process aborts), or a deadlock. *)
Definition M (A : Type) : Type := World → option (A * World).

Definition ret {A} (a : A) : M A := λ w, Some (a, w).

Definition bind {A B} (m : M A) (k : A → M B) : M B :=
  λ w, match m w with
       | Some (a, w') => k a w'
       | None => None
       end.

Definition abort {A} : M A := λ _, None.

Definition get : M World := λ w, Some (w, w).

Definition modify (f : World → World) : M unit := λ w, Some (tt, f w).

Notation "x <- c1 ;; c2" := (bind c1 (λ x, c2))
  (at level 100, c1 at next level, right associativity).
Notation "c1 ;; c2" := (bind c1 (λ _, c2))
  (at level 100, right associativity).

Definition emit (e : event) : M unit :=
  modify (λ w, set_trace (trace w ++ [e]) w).

(** [printf("%s\n", s)]: a null pointer under ["%s"] is undefined
    behaviour, and the call does not return. *)
Definition printf (s : option string) : M unit :=
  match s with
  | None => abort
  | Some _ => modify (λ w, set_stdout (stdout w ++ [s]) w)
  end.

(** Dereferencing a [ContextPtr]: defined only on a live context. *)
Definition deref_ctx (ptr : Z) : M m_ctx :=
  λ w, match contexts w !! ptr with
       | Some ctx => Some (ctx, w)
       | None => None
       end.

Definition store_ctx (ptr : Z) (ctx : m_ctx) : M unit :=
  modify (λ w, set_contexts (<[ptr := ctx]> (contexts w)) w).

(** ** The resolver table ([engine.go]) *)

(** [resolverTableLock.Lock()]: blocks for ever when the lock is held. *)
Definition Lock : M unit :=
  λ w, if resolverTableLock w then None
       else Some (tt, set_trace (trace w ++ [EvLock]) (set_lock true w)).

(** [resolverTableLock.Unlock()]: a fatal error when the lock is free. *)
Definition Unlock : M unit :=
  λ w, if resolverTableLock w
       then Some (tt, set_trace (trace w ++ [EvUnlock]) (set_lock false w))
       else None.

(** [resolverFuncs[token]]: a missing key reads as the nil function. *)
Definition table_load (token : Z) : M (option ModuleResolverCallback) :=
  emit (EvTableLoad token) ;;
  w <- get ;;
  ret (default None (resolverFuncs w !! token)).

(** [resolverFuncs[token] = resolve] *)
Definition table_store
    (token : Z) (resolve : option ModuleResolverCallback) : M unit :=
  emit (EvTableStore token) ;;
  modify (λ w, set_resolverFuncs (<[token := resolve]> (resolverFuncs w)) w).

(** [delete(resolverFuncs, token)] *)
Definition table_delete (token : Z) : M unit :=
  emit (EvTableDelete token) ;;
  modify (λ w, set_resolverFuncs (delete token (resolverFuncs w)) w).

(** [C.GoString]: a null pointer reads as the empty string. *)
Definition GoString (p : option string) : string :=
  match p with
  | None => EmptyString
  | Some s => c_str s
  end.

(** [C.CString]: a copy of the bytes, NUL-terminated. *)
Definition CString (s : string) : string := s.

(** [ResolveModule], exported to the C++ side. *)
Definition ResolveModule
    (moduleSpecifier referrerSpecifier : string) (resolverToken : Z)
  : M (option string * Z) :=
  let moduleName := GoString (Some moduleSpecifier) in
  let referrerName := GoString (Some referrerSpecifier) in
  Lock ;;
  resolve <- table_load resolverToken ;;
  Unlock ;;
  match resolve with
  | None => ret (None, C_int 1)
  | Some resolve =>
      emit (EvResolve resolverToken moduleName referrerName) ;;
      let '(canon, r) := resolve moduleName referrerName in
      ret (Some (CString canon), C_int r)
  end.

(** ** The C++ side *)

Module Cpp.

(** [CopyString(std::string)]: a fresh copy, never null. *)
Definition CopyString (str : string) : option string := Some str.

(** [CopyString(String::Utf8Value&)]: null for a value of length 0. *)
Definition CopyString_Utf8Value (value : string) : option string :=
  if (String.length value =? 0)%nat then None
  else CopyString (c_str value).

(** One [sb << ":" << n] segment. *)
Definition segment (n : Z) : string := ":" +:+ pretty n.

Definition ExceptionError (try_catch : TryCatch) : RtnError :=
  if HasTerminated try_catch then
    {| msg := CopyString
                "ExecutionTerminated: script execution has been terminated";
       location := None;
       stack := None |}
  else
    {| msg := CopyString_Utf8Value (Exception try_catch);
       location :=
         match GetMessage try_catch with
         | Some m =>
             let sb := c_str (ResourceName m) in
             let sb := match GetLineNumber m with
                       | Some line => sb +:+ segment line
                       | None => sb
                       end in
             let sb := match GetStartColumn m with
                       | Some start => sb +:+ segment (C_int (start + 1))
                       | None => sb
                       end in
             CopyString sb
         | None => None
         end;
       stack :=
         match StackTrace try_catch with
         | Some s => CopyString_Utf8Value s
         | None => None
         end |}.

(** [cb], installed as [V8Engine.cb]: stores its first argument in the
    callback slot of the context of the running isolate. *)
Definition cb (ptr : Z) (args : list Value) : M unit :=
  ctx <- deref_ctx ptr ;;
  match default Undefined (args !! 0%nat) with
  | FunctionValue func =>
      store_ctx ptr {| m_ctx_cb := Some func;
                       modules := modules ctx;
                       resolved := resolved ctx |}
  | _ => abort
  end.

(** The engine executes code in the context at [ptr]: its calls to [cb]
    take effect in order, then the execution completes. *)
Fixpoint engine_calls (ptr : Z) (calls : list (list Value)) : M unit :=
  match calls with
  | [] => ret tt
  | args :: rest => cb ptr args ;; engine_calls ptr rest
  end.

Definition execute (ptr : Z) (x : Execution) : M (Value + TryCatch) :=
  engine_calls ptr (host_calls x) ;;
  ret (completion x).

Definition NewContext : M Z :=
  w <- get ;;
  let ctx := fresh ({[nullptr]} ∪ dom (contexts w)) in
  store_ctx ctx {| m_ctx_cb := None; modules := ∅; resolved := ∅ |} ;;
  ret ctx.

Definition new_m_value (val : m_value) : M Z :=
  w <- get ;;
  let p := fresh ({[nullptr]} ∪ dom (values w)) in
  modify (λ w, set_values (<[p := val]> (values w)) w) ;;
  ret p.

Definition deref_value (ptr : Z) : M m_value :=
  λ w, match values w !! ptr with
       | Some val => Some (val, w)
       | None => None
       end.

Definition ResolveCallback
    (ctx : m_ctx) (specifier : string) (referrer : JSModule)
  : option JSModule :=
  let moduleName := c_str specifier in
  match resolved ctx !! GetIdentityHash referrer with
  | None => None
  | Some localResolve => localResolve !! moduleName
  end.

Section Bridge.

Variable v8 : V8.

Definition Run (ptr : Z) (source origin : string) : M RtnValue :=
  _ <- deref_ctx ptr ;;
  let lSource := c_str source in
  let lOrigin := c_str source in
  match Script_Compile v8 lSource lOrigin with
  | inr try_catch =>
      ret {| value := nullptr; error := ExceptionError try_catch |}
  | inl script =>
      result <- execute ptr (Script_Run v8 script) ;;
      match result with
      | inr try_catch =>
          ret {| value := nullptr; error := ExceptionError try_catch |}
      | inl result =>
          val <- new_m_value {| m_value_ptr := result; context := ptr |} ;;
          ret {| value := val;
                 error := {| msg := None; location := None; stack := None |} |}
      end
  end.

(** The loop of [LoadModule] over the module requests: [inl] is an early
    [return] with that status, [inr] the filled [resolved] map. *)
Fixpoint resolve_requests
    (ptr : Z) (name_s : string) (callback_index : Z)
    (requests : list string) (resolved : gmap string JSModule)
  : M (Z + gmap string JSModule) :=
  match requests with
  | [] => ret (inr resolved)
  | dependency :: rest =>
      let dependencySpecifier := c_str dependency in
      retval <- ResolveModule dependencySpecifier name_s callback_index ;;
      if negb (retval.2 =? 0) then ret (inl retval.2)
      else
        ctx <- deref_ctx ptr ;;
        match retval.1 with
        | None => abort
        | Some r0 =>
            match modules ctx !! c_str r0 with
            | None => ret (inl 2)
            | Some m =>
                resolve_requests ptr name_s callback_index rest
                  (<[dependencySpecifier := m]> resolved)
            end
        end
  end.

Definition LoadModule
    (ptr : Z) (source_s name_s : string) (callback_index : Z) : M Z :=
  _ <- deref_ctx ptr ;;
  let name := c_str name_s in
  let source_text := c_str source_s in
  match CompileModule v8 source_text name with
  | inr try_catch =>
      let err := ExceptionError try_catch in
      printf (msg err) ;;
      ret 1
  | inl module =>
      r <- resolve_requests ptr name_s callback_index
             (GetModuleRequests module) ∅ ;;
      match r with
      | inl status => ret status
      | inr resolved_ =>
          ctx <- deref_ctx ptr ;;
          let ctx := {| m_ctx_cb := m_ctx_cb ctx;
                        modules := <[c_str name_s := module]> (modules ctx);
                        resolved := <[GetIdentityHash module := resolved_]>
                                      (resolved ctx) |} in
          store_ctx ptr ctx ;;
          let ok := InstantiateModule v8 module (ResolveCallback ctx) in
          if negb (default false ok) then ret 3
          else
            result <- execute ptr (Module_Evaluate v8 module) ;;
            match result with
            | inr try_catch =>
                let err := ExceptionError try_catch in
                printf (msg err) ;;
                ret 4
            | inl _ => ret 0
            end
      end
  end.

(** [DisposeContext]: [isolate->Dispose()] is called while the isolate is
    still locked and entered by the caller's own [Locker] and
    [Isolate::Scope], which the engine answers with a fatal error; the
    [delete ctx] after it is not reached. *)
Definition DisposeContext (ptr : Z) : M unit :=
  if ptr =? nullptr then ret tt
  else
    _ <- deref_ctx ptr ;;
    abort.

Definition DisposeValue (ptr : Z) : M unit :=
  if ptr =? nullptr then ret tt
  else
    val <- deref_value ptr ;;
    let ctx := context val in
    if ctx =? nullptr then ret tt
    else
      _ <- deref_ctx ctx ;;
      modify (λ w, set_values (delete ptr (values w)) w).

Definition Send (ptr : Z) (length : Z) (data : list Byte.byte) : M Z :=
  ctx <- deref_ctx ptr ;;
  match m_ctx_cb ctx with
  | None => ret 2
  | Some cb =>
      let args := [ArrayBuffer (take (Z.to_nat length) data)] in
      emit (EvCall cb args) ;;
      ret_ <- execute ptr (Function_Call v8 cb args) ;;
      match ret_ with
      | inr try_catch =>
          let err := ExceptionError try_catch in
          printf (msg err) ;;
          printf (stack err) ;;
          ret 3
      | inl _ => ret 0
      end
  end.

End Bridge.

(** The functions that convert a value to text.  The conversion itself,
    [String::Utf8Value(isolate, value)], is the engine's. *)
Section Strings.

Variable Utf8Value : Value → string.

(** [Fprint]: what each [fprintf] on [out] is given to write, in order;
    [None] is a null pointer under ["%s"]. *)
Fixpoint Fprint_loop (first : bool) (args : list Value)
  : list (option string) :=
  match args with
  | [] => []
  | arg :: rest =>
      (if first then [] else [Some " "]) ++
      [CopyString_Utf8Value (Utf8Value arg)] ++
      Fprint_loop false rest
  end.

Definition Fprint (args : list Value) : list (option string) :=
  Fprint_loop true args ++ [Some (String (Ascii.ascii_of_nat 10) "")].

Definition ValueToString (ptr : Z) : M (option string) :=
  val <- deref_value ptr ;;
  _ <- deref_ctx (context val) ;;
  ret (CopyString_Utf8Value (Utf8Value (m_value_ptr val))).

End Strings.

End Cpp.

(** ** The Go side ([engine.go]) *)

(** The engine's values, under a name that the Go side's own [Value]
    does not hide. *)
Definition JSValue : Type := Value.

Module Go.

Record Engine := { contextPtr : Z }.

(** [Value] wraps a [ValuePtr]. *)
Record Value := { ptr : Z }.

Record JSError := {
  Message : string;
  Location : string;
  StackTrace : string
}.

Definition getValue (rtn : RtnValue) : option Value :=
  if value rtn =? nullptr then None
  else Some {| ptr := value rtn |}.

Definition getError (rtn : RtnValue) : option JSError :=
  match msg (error rtn) with
  | None => None
  | Some _ =>
      Some {| Message := GoString (msg (error rtn));
              Location := GoString (location (error rtn));
              StackTrace := GoString (stack (error rtn)) |}
  end.

Section Methods.

Variable v8 : V8.

Definition NewEngine : M Engine :=
  contextPtr <- Cpp.NewContext ;;
  ret {| contextPtr := contextPtr |}.

Definition Run (e : Engine) (source origin : string)
  : M (option Value * option JSError) :=
  let cSource := CString source in
  let cOrigin := CString origin in
  rtn <- Cpp.Run v8 (contextPtr e) cSource cOrigin ;;
  ret (getValue rtn, getError rtn).

Definition LoadModule
    (e : Engine) (source origin : string)
    (resolve : option ModuleResolverCallback) : M Z :=
  let cSource := CString source in
  let cOrigin := CString origin in
  Lock ;;
  modify (λ w, set_nextResolverToken (Go_int (nextResolverToken w + 1)) w) ;;
  w <- get ;;
  let token := nextResolverToken w in
  table_store token resolve ;;
  Unlock ;;
  let cToken := C_int token in
  rtn <- Cpp.LoadModule v8 (contextPtr e) cSource cOrigin cToken ;;
  Lock ;;
  table_delete token ;;
  Unlock ;;
  ret rtn.

(** [Send] returns the error text when the status is not 0. *)
Definition Send (e : Engine) (msg : list Byte.byte) : M (option string) :=
  let msgPointer := msg in
  code <- Cpp.Send v8 (contextPtr e)
            (Z.of_nat (length msg)) msgPointer ;;
  if negb (code =? 0) then ret (Some ("expected 0, got " +:+ pretty code))
  else ret None.

Definition Engine_finalizer (e : Engine) : M Engine :=
  Cpp.DisposeContext (contextPtr e) ;;
  ret {| contextPtr := nullptr |}.

Definition Value_finalizer (v : Value) : M Value :=
  Cpp.DisposeValue (ptr v) ;;
  ret {| ptr := nullptr |}.

End Methods.

(** [(v *Value) String()] *)
Definition Value_String (Utf8Value : JSValue → string) (v : Value)
  : M string :=
  s <- Cpp.ValueToString Utf8Value (ptr v) ;;
  ret (GoString s).

End Go.

(** ** Reading the trace *)



Definition resolver_calls (tr : list event) : list (Z * string * string) :=
  omap (λ e, match e with
             | EvResolve t m r => Some (t, m, r)
             | _ => None
             end) tr.




(** The events of one [LoadModule] call of the Go side under [token],
    around the [events] of the C++ side. *)
Definition call_events (token : Z) (events : list event) : list event :=
  [EvLock; EvTableStore token; EvUnlock] ++ events ++
  [EvLock; EvTableDelete token; EvUnlock].

(** ** The specification's reading of the operations *)

(** [origin:line:column] with the column one-indexed; a segment that is
    not available is left out. *)
Definition location_format
    (origin : string) (line column : option Z) : string :=
  origin +:+
  (from_option (λ l, ":" +:+ pretty l) "" line +:+
   from_option (λ c, ":" +:+ pretty (c + 1)) "" column).

(** The resolving step of a module load.  Strings cross to the C++ side
    as C strings. *)
Inductive resolution :=
| ResolverFailed (status : Z)
| UnknownModule
| Resolved (table : gmap string JSModule).

Fixpoint resolve_dependencies
    (resolver : option ModuleResolverCallback)
    (registry : gmap string JSModule) (name : string)
    (specifiers : list string) (table : gmap string JSModule)
  : resolution :=
  match specifiers with
  | [] => Resolved table
  | specifier :: rest =>
      match resolver with
      | None => ResolverFailed 1
      | Some resolver' =>
          let '(canon, status) := resolver' (c_str specifier) name in
          if status =? 0 then
            match registry !! c_str canon with
            | None => UnknownModule
            | Some m =>
                resolve_dependencies resolver registry name rest
                  (<[c_str specifier := m]> table)
            end
          else ResolverFailed status
      end
  end.

(** The context once [module] is registered under [name] with the
    resolution [table] of its imports. *)
Definition register_module
    (ctx : m_ctx) (name : string) (module : JSModule)
    (table : gmap string JSModule) : m_ctx :=
  {| m_ctx_cb := m_ctx_cb ctx;
     modules := <[name := module]> (modules ctx);
     resolved := <[GetIdentityHash module := table]> (resolved ctx) |}.



(** A dependency the resolver cannot resolve: it reports a failure (a
    status that is not 0 as a C [int]), or names a module that is not in
    the registry. *)
Definition unresolvable
    (resolver : option ModuleResolverCallback)
    (registry : gmap string JSModule) (name specifier : string) : Prop :=
  match resolver with
  | None => True
  | Some resolver' =>
      C_int (resolver' (c_str specifier) name).2 ≠ 0 ∨
      registry !! c_str (resolver' (c_str specifier) name).1 = None
  end.


(** The statuses of a resolver fit a C [int]. *)
Definition fits_C_int (resolver : option ModuleResolverCallback) : Prop :=
  match resolver with
  | None => True
  | Some resolver' => ∀ a b, C_int (resolver' a b).2 = (resolver' a b).2
  end.

(** A call of [V8Engine.cb] that passes its [assert]. *)
Definition registers (args : list Value) : bool :=
  IsFunction (default Undefined (args !! 0%nat)).

(** An execution whose calls of [V8Engine.cb] all pass a function. *)
Definition safe (x : Execution) : bool := forallb registers (host_calls x).

(** An exception whose message the bridge can print: the message that
    [ExceptionError] gives it is not null. *)
Definition reportable (try_catch : TryCatch) : bool :=
  match msg (Cpp.ExceptionError try_catch) with
  | Some _ => true
  | None => false
  end.

(** An exception of which the bridge can print message and stack. *)
Definition printable (try_catch : TryCatch) : bool :=
  reportable try_catch &&
  match stack (Cpp.ExceptionError try_catch) with
  | Some _ => true
  | None => false
  end.


(** An execution of a callback after which [Send] returns: it completes
    with a value, or with an exception of which message and stack can be
    printed. *)
Definition sendable (x : Execution) : bool :=
  match completion x with
  | inl _ => true
  | inr try_catch => printable try_catch
  end.



(** The callback slot after a sequence of registrations. *)
Fixpoint apply_calls (ctx : m_ctx) (calls : list (list Value)) : m_ctx :=
  match calls with
  | [] => ctx
  | args :: rest =>
      match default Undefined (args !! 0%nat) with
      | FunctionValue func =>
          apply_calls {| m_ctx_cb := Some func;
                         modules := modules ctx;
                         resolved := resolved ctx |} rest
      | _ => apply_calls ctx rest
      end
  end.

(** ** Sequences of module loads *)



(** ** A small engine and a start state, to run the bridge on *)

Definition initial : World :=
  {| resolverTableLock := false; nextResolverToken := 0;
     resolverFuncs := ∅; contexts := ∅; values := ∅;
     stdout := []; trace := [] |}.

Definition returns (v : Value) : Execution :=
  {| host_calls := []; completion := inl v |}.

Definition throws
    (exception origin : string) (line column : Z) (stack : option string)
  : Execution :=
  {| host_calls := [];
     completion :=
       inr {| HasTerminated := false;
              Exception := exception;
              GetMessage := Some {| ResourceName := origin;
                                    GetLineNumber := Some line;
                                    GetStartColumn := Some column |};
              StackTrace := stack |} |}.

Definition sample_v8 : V8 :=
  {| Script_Compile := λ source origin,
       inl {| script_source := source; script_origin := origin |};
     Script_Run := λ s,
       if String.eqb (script_source s) "throw new Error('boom')" then
         throws "Error: boom" (script_origin s) 1 0
           (Some ("Error: boom" +:+ String (Ascii.ascii_of_nat 10) "    at " +:+
                  script_origin s +:+ ":1:7"))
       else if String.eqb (script_source s) "throw ''" then
         throws "" (script_origin s) 1 0 None
       else if String.eqb (script_source s) "V8Engine.cb(f1)" then
         {| host_calls := [[FunctionValue (Fn 1)]];
            completion := inl Undefined |}
       else if String.eqb (script_source s) "V8Engine.cb(f2)" then
         {| host_calls := [[FunctionValue (Fn 2)]];
            completion := inl Undefined |}
       else if String.eqb (script_source s) "1+1" then
         returns (Primitive "2")
       else returns Undefined;
     CompileModule := λ source name,
       if String.eqb source "import 'dep.js';" then
         inl {| GetIdentityHash := 7;
                GetModuleRequests := ["dep.js"];
                module_origin := name |}
       else if String.eqb source "export const x = ;" then
         inr {| HasTerminated := false;
                Exception := "SyntaxError: Unexpected token ';'";
                GetMessage := Some {| ResourceName := name;
                                      GetLineNumber := Some 1;
                                      GetStartColumn := Some 17 |};
                StackTrace := None |}
       else
         inl {| GetIdentityHash := 11;
                GetModuleRequests := [];
                module_origin := name |};
     InstantiateModule := λ module resolve,
       if forallb (λ specifier,
                     bool_decide (is_Some (resolve specifier module)))
            (GetModuleRequests module)
       then Some true else None;
     Module_Evaluate := λ module, returns Undefined;
     Function_Call := λ f args,
       match f with
       | Fn 2 => throws "Error: in callback" "cb.js" 3 4 None
       | _ => returns Undefined
       end |}.

(** A world with one engine (its context at address 1). *)
Definition one_engine : World :=
  {| resolverTableLock := false; nextResolverToken := 0;
     resolverFuncs := ∅;
     contexts := {[ 1 := {| m_ctx_cb := None; modules := ∅;
                            resolved := ∅ |} ]};
     values := ∅; stdout := []; trace := [] |}.

Definition the_engine : Go.Engine := {| Go.contextPtr := 1 |}.

(** The same world with a callback in the slot, and with one value handle
    (at address 1) produced in the context. *)
Definition world_with (slot : option Function) : World :=
  {| resolverTableLock := false; nextResolverToken := 0;
     resolverFuncs := ∅;
     contexts := {[ 1 := {| m_ctx_cb := slot; modules := ∅;
                            resolved := ∅ |} ]};
     values := ∅; stdout := []; trace := [] |}.

Definition world_with_value : World :=
  set_values {[ 1 := {| m_value_ptr := Primitive "2"; context := 1 |} ]}
    one_engine.

(** A resolver that rejects every specifier with status 7, and three
    loads through it: a module without imports, a module with an import,
    and a module that does not compile. *)
Definition failing_resolver : ModuleResolverCallback := λ _ _, ("", 7).


(** ** The bridge as a function of what it reads

    The result and the events of the operations that run through the
    resolver table, computed from the table entry [r] under the token and
    from the context; the lemmas below show that the code computes
    exactly these. *)

Definition world_after
    (w : World) (ptr : Z) (ctx : m_ctx)
    (printed : list (option string)) (events : list event) : World :=
  set_contexts (<[ptr := ctx]> (contexts w))
    (set_stdout (stdout w ++ printed)
       (set_trace (trace w ++ events) w)).

Definition resolve_answer
    (r : option ModuleResolverCallback) (specifier referrer : string)
  : option string * Z :=
  match r with
  | None => (None, C_int 1)
  | Some resolve =>
      (Some (resolve (c_str specifier) (c_str referrer)).1,
       C_int (resolve (c_str specifier) (c_str referrer)).2)
  end.

Definition resolve_events
    (token : Z) (r : option ModuleResolverCallback)
    (specifier referrer : string) : list event :=
  [EvLock; EvTableLoad token; EvUnlock] ++
  match r with
  | None => []
  | Some _ => [EvResolve token (c_str specifier) (c_str referrer)]
  end.

Fixpoint requests_run
    (token : Z) (r : option ModuleResolverCallback)
    (registry : gmap string JSModule) (name_s : string)
    (requests : list string) (table : gmap string JSModule)
  : (Z + gmap string JSModule) * list event :=
  match requests with
  | [] => (inr table, [])
  | dependency :: rest =>
      let events := resolve_events token r (c_str dependency) name_s in
      match resolve_answer r (c_str dependency) name_s with
      | (Some r0, 0) =>
          match registry !! c_str r0 with
          | None => (inl 2, events)
          | Some m =>
              let '(result, events') :=
                requests_run token r registry name_s rest
                  (<[c_str dependency := m]> table) in
              (result, events ++ events')
          end
      | (_, r1) => (inl r1, events)
      end
  end.

Definition LoadModule_outcome
    (v8 : V8) (token : Z) (r : option ModuleResolverCallback)
    (ctx : m_ctx) (source_s name_s : string)
  : option (Z * m_ctx * list (option string) * list event) :=
  match CompileModule v8 (c_str source_s) (c_str name_s) with
  | inr try_catch =>
      if reportable try_catch
      then Some (1, ctx, [msg (Cpp.ExceptionError try_catch)], [])
      else None
  | inl module =>
      match requests_run token r (modules ctx) name_s
              (GetModuleRequests module) ∅ with
      | (inl status, events) => Some (status, ctx, [], events)
      | (inr table, events) =>
          let ctx' := register_module ctx (c_str name_s) module table in
          if default false
               (InstantiateModule v8 module (Cpp.ResolveCallback ctx'))
          then
            let x := Module_Evaluate v8 module in
            if safe x then
              match completion x with
              | inr try_catch =>
                  if reportable try_catch
                  then Some (4, apply_calls ctx' (host_calls x),
                             [msg (Cpp.ExceptionError try_catch)], events)
                  else None
              | inl _ => Some (0, apply_calls ctx' (host_calls x), [], events)
              end
            else None
          else Some (3, ctx', [], events)
      end
  end.

(** ** Reading what was written *)

(** The text that a sequence of writes produces: each chunk is read as a
    C string; a null pointer has no text. *)
Fixpoint text (chunks : list (option string)) : option string :=
  match chunks with
  | [] => Some ""
  | Some s :: rest => (λ t, c_str s +:+ t) <$> text rest
  | None :: _ => None
  end.

(** Words joined by single spaces. *)
Fixpoint joined (words : list string) : string :=
  match words with
  | [] => ""
  | word :: rest =>
      match rest with
      | [] => word
      | _ :: _ => word +:+ " " +:+ joined rest
      end
  end.

(** The context that [NewContext] creates. *)
Definition new_ctx : m_ctx :=
  {| m_ctx_cb := None; modules := ∅; resolved := ∅ |}.

(** ** More sample data *)

Definition dep_module : JSModule :=
  {| GetIdentityHash := 11; GetModuleRequests := [];
     module_origin := "dep.js" |}.

(** The world of one engine once ["dep.js"] is loaded. *)
Definition world_with_dep : World :=
  set_contexts
    {[ 1 := {| m_ctx_cb := None; modules := {[ "dep.js" := dep_module ]};
               resolved := {[ 11 := ∅ ]} |} ]}
    one_engine.

Definition dep_resolver : ModuleResolverCallback := λ _ _, ("dep.js", 0).

(** An engine in which no module can be instantiated, and one in which
    every module throws when it is evaluated. *)
Definition unlinkable_v8 : V8 :=
  {| Script_Compile := Script_Compile sample_v8;
     Script_Run := Script_Run sample_v8;
     CompileModule := CompileModule sample_v8;
     InstantiateModule := λ _ _, None;
     Module_Evaluate := Module_Evaluate sample_v8;
     Function_Call := Function_Call sample_v8 |}.

Definition throwing_v8 : V8 :=
  {| Script_Compile := Script_Compile sample_v8;
     Script_Run := Script_Run sample_v8;
     CompileModule := CompileModule sample_v8;
     InstantiateModule := InstantiateModule sample_v8;
     Module_Evaluate := λ module,
       throws "Error: at top level" (module_origin module) 1 6 None;
     Function_Call := λ f args,
       match f with
       | Fn 3 => {| host_calls := [[FunctionValue (Fn 4)]];
                    completion := inl Undefined |}
       | _ => returns Undefined
       end |}.

(** A resolver whose failure status is 2^32, and a world in which it is
    registered under token 5. *)
Definition wide_resolver : ModuleResolverCallback :=
  λ _ _, ("dep.js", 4294967296).

Definition world_with_resolver : World :=
  set_resolverFuncs {[ 5 := Some wide_resolver ]} one_engine.

(** The world of [world_with_dep] when the token counter has reached the
    largest C [int]. *)
Definition world_at_int_max : World :=
  set_nextResolverToken 2147483647 world_with_dep.

(** A string conversion of values. *)
Definition sample_Utf8Value (v : Value) : string :=
  match v with
  | Undefined => "undefined"
  | FunctionValue _ => "function () {}"
  | ArrayBuffer _ => "[object ArrayBuffer]"
  | Primitive s => s
  end.

(** An engine in which the callback [Fn 5] registers [Fn 6] and then
    throws an error, which has a stack trace. *)
Definition erroring_v8 : V8 :=
  {| Script_Compile := Script_Compile sample_v8;
     Script_Run := Script_Run sample_v8;
     CompileModule := CompileModule sample_v8;
     InstantiateModule := InstantiateModule sample_v8;
     Module_Evaluate := Module_Evaluate sample_v8;
     Function_Call := λ f args,
       match f with
       | Fn 5 =>
           {| host_calls := [[FunctionValue (Fn 6)]];
              completion :=
                inr {| HasTerminated := false;
                       Exception := "Error: in callback";
                       GetMessage := Some {| ResourceName := "cb.js";
                                             GetLineNumber := Some 3;
                                             GetStartColumn := Some 4 |};
                       StackTrace :=
                         Some "Error: in callback at cb.js:3:5" |} |}
       | _ => returns Undefined
       end |}.

(** An engine in which every module throws the empty string when it is
    evaluated. *)
Definition silent_v8 : V8 :=
  {| Script_Compile := Script_Compile sample_v8;
     Script_Run := Script_Run sample_v8;
     CompileModule := CompileModule sample_v8;
     InstantiateModule := InstantiateModule sample_v8;
     Module_Evaluate := λ module, throws "" (module_origin module) 1 0 None;
     Function_Call := Function_Call sample_v8 |}.

(** * Properties *)

(** ** Integers and strings *)

Lemma wrap_small (w z : Z) :
  0 < w → - 2 ^ (w - 1) ≤ z < 2 ^ (w - 1) → wrap w z = z.
Proof.
  intros Hw Hz. unfold wrap.
  assert (H2 : 2 ^ w = 2 * 2 ^ (w - 1)).
  { replace w with (Z.succ (w - 1)) at 1 by lia. apply Z.pow_succ_r. lia. }
  rewrite Z.mod_small; lia.
Qed.

Lemma C_int_small (z : Z) : - 2147483648 ≤ z < 2147483648 → C_int z = z.
Proof. intros Hz. apply wrap_small; [lia | simpl; lia]. Qed.

Lemma Go_int_small (z : Z) :
  - 9223372036854775808 ≤ z < 9223372036854775808 → Go_int z = z.
Proof. intros Hz. apply wrap_small; [lia | simpl; lia]. Qed.

Lemma append_assoc (a b c : string) : (a +:+ b) +:+ c = a +:+ (b +:+ c).
Proof.
  induction a as [|x a IH]; [done |].
  change (String x ((a +:+ b) +:+ c) = String x (a +:+ b +:+ c)).
  by rewrite IH.
Qed.

Lemma append_empty_r (a : string) : a +:+ "" = a.
Proof.
  induction a as [|x a IH]; [done |].
  change (String x (a +:+ "") = String x a).
  by rewrite IH.
Qed.

Lemma c_str_idemp (s : string) : c_str (c_str s) = c_str s.
Proof.
  induction s as [|c s IH]; simpl; [done |].
  destruct (Ascii.eqb c Ascii.zero) eqn:E; simpl; [done |].
  by rewrite E, IH.
Qed.

(** ** The start state *)

(** The first engine created in a fresh process is [the_engine], in the
    world [one_engine]. *)
Lemma NewEngine_initial :
  Go.NewEngine initial = Some (the_engine, one_engine).
Proof. vm_compute. reflexivity. Qed.

(** A successful run leaves a value handle in the world. *)
Lemma Run_one_plus_one :
  Go.Run sample_v8 the_engine "1+1" "test.js" one_engine =
    Some ((Some {| Go.ptr := 1 |}, None), world_with_value).
Proof. vm_compute. reflexivity. Qed.

(** ** The error marshaller *)

Lemma location_format_code (origin : string) (line column : option Z) :
  (∀ c, column = Some c → C_int (c + 1) = c + 1) →
  (let sb := origin in
   let sb := match line with
             | Some l => sb +:+ Cpp.segment l
             | None => sb
             end in
   match column with
   | Some start => sb +:+ Cpp.segment (C_int (start + 1))
   | None => sb
   end) = location_format origin line column.
Proof.
  intros Hc. unfold location_format, Cpp.segment.
  destruct line as [l|], column as [c|]; simpl;
    rewrite ?(Hc c eq_refl), ?append_assoc, ?append_empty_r; done.
Qed.

(** C6. A terminated execution is marshalled to the fixed message with no
    location and no stack (empty strings on the Go side).  Otherwise, when
    the exception has a diagnostic message, the location is the origin
    followed by [:line] and [:column+1], each left out when the engine
    does not give it; an exception at line 2 whose zero-indexed column is
    2 (the third character) gets a location ending in [:2:3]. *)
Theorem ExceptionError_marshals (try_catch : TryCatch) :
  (HasTerminated try_catch = true →
   Cpp.ExceptionError try_catch =
     {| msg := Some
          "ExecutionTerminated: script execution has been terminated";
        location := None; stack := None |} ∧
   Go.getError
     {| value := nullptr; error := Cpp.ExceptionError try_catch |} =
     Some {| Go.Message :=
               "ExecutionTerminated: script execution has been terminated";
             Go.Location := ""; Go.StackTrace := "" |}) ∧
  (HasTerminated try_catch = false →
   ∀ m, GetMessage try_catch = Some m →
     (∀ c, GetStartColumn m = Some c → 0 ≤ c < 2147483647) →
     location (Cpp.ExceptionError try_catch) =
       Some (location_format (c_str (ResourceName m))
               (GetLineNumber m) (GetStartColumn m)) ∧
     (GetLineNumber m = Some 2 → GetStartColumn m = Some 2 →
      location (Cpp.ExceptionError try_catch) =
        Some (c_str (ResourceName m) +:+ ":2:3"))).
Proof.
  split.
  - intros Ht. unfold Cpp.ExceptionError. rewrite Ht. split; [done |].
    reflexivity.
  - intros Ht m Hm Hcol.
    assert (Hloc : location (Cpp.ExceptionError try_catch) =
                   Some (location_format (c_str (ResourceName m))
                           (GetLineNumber m) (GetStartColumn m))).
    { unfold Cpp.ExceptionError. rewrite Ht. simpl. rewrite Hm.
      unfold Cpp.CopyString. f_equal. apply location_format_code.
      intros c Hc. apply C_int_small. specialize (Hcol c Hc). lia. }
    split; [exact Hloc |].
    intros Hl Hc. rewrite Hloc, Hl, Hc. reflexivity.
Qed.

Lemma ExceptionError_marshals_witness :
  let try_catch :=
    {| HasTerminated := false; Exception := "Error: boom";
       GetMessage := Some {| ResourceName := "test.js";
                             GetLineNumber := Some 2;
                             GetStartColumn := Some 2 |};
       StackTrace := None |} in
  location (Cpp.ExceptionError try_catch) = Some "test.js:2:3".
Proof.
  intros try_catch.
  destruct (ExceptionError_marshals try_catch) as [_ H].
  destruct (H eq_refl _ eq_refl) as [_ H23].
  - intros c Hc. injection Hc as <-. lia.
  - exact (H23 eq_refl eq_refl).
Defined.

(** ** Running the resolver table operations *)

Lemma world_eta (w : World) :
  {| resolverTableLock := resolverTableLock w;
     nextResolverToken := nextResolverToken w;
     resolverFuncs := resolverFuncs w; contexts := contexts w;
     values := values w; stdout := stdout w; trace := trace w |} = w.
Proof. by destruct w. Qed.

Lemma C_int_1 : C_int 1 = 1.
Proof. reflexivity. Qed.

Lemma ResolveModule_run (specifier referrer : string) (token : Z) (w : World) :
  resolverTableLock w = false →
  ResolveModule specifier referrer token w =
    Some (resolve_answer (default None (resolverFuncs w !! token))
            specifier referrer,
          set_trace
            (trace w ++
             resolve_events token (default None (resolverFuncs w !! token))
               specifier referrer) w).
Proof.
  intros Hl. unfold ResolveModule, bind, Lock, Unlock, table_load, emit,
    modify, get, ret, bind. rewrite Hl. simpl.
  destruct w as [l n t c v o tr]. simpl in *. subst l.
  unfold resolve_answer, resolve_events, set_trace, set_lock. simpl.
  destruct (default None (t !! token)) as [resolve|]; simpl.
  - destruct (resolve (c_str specifier) (c_str referrer)) as [canon st].
    simpl. unfold CString. by rewrite <- !app_assoc.
  - by rewrite <- !app_assoc.
Qed.

Lemma set_trace_twice (a b : list event) (w : World) :
  set_trace (trace (set_trace (trace w ++ a) w) ++ b)
    (set_trace (trace w ++ a) w) = set_trace (trace w ++ a ++ b) w.
Proof. unfold set_trace. simpl. by rewrite app_assoc. Qed.

Lemma resolve_requests_run
    (v8 : V8) (ptr : Z) (ctx : m_ctx) (name_s : string) (token : Z)
    (requests : list string) (table : gmap string JSModule) (w : World) :
  resolverTableLock w = false →
  contexts w !! ptr = Some ctx →
  Cpp.resolve_requests ptr name_s token requests table w =
    let run := requests_run token (default None (resolverFuncs w !! token))
                 (modules ctx) name_s requests table in
    Some (run.1, set_trace (trace w ++ run.2) w).
Proof.
  revert table w. induction requests as [|d rest IH]; intros table w Hl Hc.
  - simpl. unfold ret. rewrite app_nil_r.
    unfold set_trace. by rewrite world_eta.
  - simpl Cpp.resolve_requests. unfold bind at 1.
    rewrite (ResolveModule_run _ _ _ _ Hl).
    cbn [requests_run].
    set (r := default None (resolverFuncs w !! token)) in *.
    destruct (resolve_answer r (c_str d) name_s) as [r0 r1] eqn:Ha.
    cbn [fst snd].
    destruct (Z.eqb_spec r1 0) as [-> | Hne].
    + cbn [negb]. unfold bind at 1, deref_ctx.
      change (contexts (set_trace _ w)) with (contexts w). rewrite Hc.
      destruct r0 as [r0|].
      * destruct (modules ctx !! c_str r0) as [m|] eqn:Hm.
        -- rewrite IH by done.
           change (resolverFuncs (set_trace _ w)) with (resolverFuncs w).
           fold r.
           destruct (requests_run token r (modules ctx) name_s rest
                       (<[c_str d := m]> table)) as [result events'].
           cbn [fst snd]. by rewrite set_trace_twice.
        -- done.
      * exfalso. unfold resolve_answer in Ha.
        destruct r; [done |]. injection Ha as H1. by rewrite C_int_1 in H1.
    + cbn [negb]. unfold ret.
      destruct r0 as [r0|]; [| done].
      destruct r1; done.
Qed.

Lemma world_ext (w1 w2 : World) :
  resolverTableLock w1 = resolverTableLock w2 →
  nextResolverToken w1 = nextResolverToken w2 →
  resolverFuncs w1 = resolverFuncs w2 →
  contexts w1 = contexts w2 →
  values w1 = values w2 →
  stdout w1 = stdout w2 →
  trace w1 = trace w2 →
  w1 = w2.
Proof. destruct w1, w2. simpl. by intros -> -> -> -> -> -> ->. Qed.

Ltac world_eq :=
  apply world_ext; simpl;
  rewrite ?app_nil_r, <- ?app_assoc, ?insert_insert_eq; try done.

(** ** Running engine code *)

Lemma engine_calls_run
    (ptr : Z) (calls : list (list Value)) (ctx : m_ctx) (w : World) :
  contexts w !! ptr = Some ctx →
  Cpp.engine_calls ptr calls w =
    if forallb registers calls
    then Some (tt, set_contexts
                     (<[ptr := apply_calls ctx calls]> (contexts w)) w)
    else None.
Proof.
  revert ctx w. induction calls as [|args rest IH]; intros ctx w Hc.
  - simpl. unfold ret. f_equal. f_equal. world_eq.
    by rewrite insert_id.
  - simpl. unfold bind at 1, Cpp.cb, bind at 1, deref_ctx. rewrite Hc.
    unfold registers at 1.
    destruct (default Undefined (args !! 0%nat)) as [|func| |]; try done.
    unfold store_ctx, modify. cbn [IsFunction andb].
    rewrite (IH {| m_ctx_cb := Some func; modules := modules ctx;
                   resolved := resolved ctx |});
      [| simpl; apply lookup_insert_eq].
    destruct (forallb registers rest); [| done].
    f_equal. f_equal. world_eq.
Qed.

Lemma execute_run (ptr : Z) (x : Execution) (ctx : m_ctx) (w : World) :
  contexts w !! ptr = Some ctx →
  Cpp.execute ptr x w =
    if safe x
    then Some (completion x,
               set_contexts
                 (<[ptr := apply_calls ctx (host_calls x)]> (contexts w)) w)
    else None.
Proof.
  intros Hc. unfold Cpp.execute, bind, safe.
  rewrite (engine_calls_run _ _ _ _ Hc).
  by destruct (forallb registers (host_calls x)).
Qed.

(** ** Running a module load *)

Lemma LoadModule_run
    (v8 : V8) (ptr : Z) (source_s name_s : string) (token : Z)
    (ctx : m_ctx) (w : World) :
  resolverTableLock w = false →
  contexts w !! ptr = Some ctx →
  Cpp.LoadModule v8 ptr source_s name_s token w =
    match LoadModule_outcome v8 token
            (default None (resolverFuncs w !! token)) ctx source_s name_s with
    | Some (status, ctx', printed, events) =>
        Some (status, world_after w ptr ctx' printed events)
    | None => None
    end.
Proof.
  intros Hl Hc. unfold Cpp.LoadModule, LoadModule_outcome.
  unfold bind at 1, deref_ctx. rewrite Hc.
  destruct (CompileModule v8 (c_str source_s) (c_str name_s))
    as [module | try_catch].
  - unfold bind at 1. rewrite (resolve_requests_run v8 _ _ _ _ _ _ _ Hl Hc).
    cbv zeta.
    destruct (requests_run token (default None (resolverFuncs w !! token))
                (modules ctx) name_s (GetModuleRequests module) ∅)
      as [[status | table] events]; cbn [fst snd].
    + unfold ret. f_equal. f_equal. unfold world_after. world_eq.
      by rewrite insert_id.
    + unfold bind at 1. simpl. rewrite Hc.
      unfold bind at 1, store_ctx, modify.
      fold (register_module ctx (c_str name_s) module table).
      set (ctx' := register_module ctx (c_str name_s) module table).
      destruct (default false
                  (InstantiateModule v8 module (Cpp.ResolveCallback ctx')));
        cbn [negb].
      * unfold bind at 1.
        rewrite (execute_run ptr _ ctx'); [| apply lookup_insert_eq].
        destruct (safe (Module_Evaluate v8 module)); [| done].
        destruct (completion (Module_Evaluate v8 module)) as [v | try_catch].
        -- unfold ret. f_equal. f_equal. unfold world_after. world_eq.
        -- unfold bind, printf, reportable.
           destruct (msg (Cpp.ExceptionError try_catch)); [| done].
           unfold modify, ret. f_equal. f_equal.
           unfold world_after. world_eq.
      * unfold ret. f_equal. f_equal. unfold world_after. world_eq.
  - unfold bind, printf, reportable.
    destruct (msg (Cpp.ExceptionError try_catch)); [| done].
    unfold modify, ret. f_equal. f_equal.
    unfold world_after. world_eq. by rewrite insert_id.
Qed.

Lemma Go_LoadModule_run
    (v8 : V8) (e : Go.Engine) (source origin : string)
    (resolve : option ModuleResolverCallback) (ctx : m_ctx) (w : World) :
  resolverTableLock w = false →
  contexts w !! Go.contextPtr e = Some ctx →
  Go.LoadModule v8 e source origin resolve w =
    let token := Go_int (nextResolverToken w + 1) in
    match LoadModule_outcome v8 (C_int token)
            (default None
               (<[token := resolve]> (resolverFuncs w) !! C_int token))
            ctx source origin with
    | Some (status, ctx', printed, events) =>
        Some (status,
              {| resolverTableLock := false;
                 nextResolverToken := token;
                 resolverFuncs := delete token (resolverFuncs w);
                 contexts := <[Go.contextPtr e := ctx']> (contexts w);
                 values := values w;
                 stdout := stdout w ++ printed;
                 trace := trace w ++ call_events token events |})
    | None => None
    end.
Proof.
  intros Hl Hc. unfold Go.LoadModule.
  unfold bind at 1, Lock. rewrite Hl.
  unfold bind at 1, modify.
  unfold bind at 1, get.
  unfold bind at 1, table_store, bind at 1, emit, modify.
  unfold bind at 1, Unlock. cbn [resolverTableLock set_resolverFuncs set_trace
    set_nextResolverToken set_lock].
  unfold bind at 1. unfold CString.
  cbn [nextResolverToken set_lock set_trace set_nextResolverToken
       resolverFuncs contexts values stdout trace set_resolverFuncs].
  set (token := Go_int (nextResolverToken w + 1)).
  erewrite (LoadModule_run v8 _ _ _ _ ctx); [| done | done].
  cbn [nextResolverToken set_lock set_trace set_nextResolverToken
       resolverFuncs contexts values stdout trace set_resolverFuncs].
  destruct (LoadModule_outcome v8 (C_int token)
              (default None
                 (<[token := resolve]> (resolverFuncs w) !! C_int token))
              ctx source origin) as [[[[status ctx'] printed] events]|];
    [| done].
  unfold bind, Lock, Unlock, table_delete, bind, emit, modify, ret.
  unfold world_after, call_events. simpl. f_equal. f_equal.
  world_eq. apply delete_insert_eq.
Qed.

Lemma Go_LoadModule_returns
    (v8 : V8) (e : Go.Engine) (source origin : string)
    (resolve : option ModuleResolverCallback) (ctx : m_ctx) (w w' : World)
    (status : Z) :
  resolverTableLock w = false →
  contexts w !! Go.contextPtr e = Some ctx →
  Go.LoadModule v8 e source origin resolve w = Some (status, w') →
  let token := Go_int (nextResolverToken w + 1) in
  ∃ ctx' printed events,
    LoadModule_outcome v8 (C_int token)
      (default None (<[token := resolve]> (resolverFuncs w) !! C_int token))
      ctx source origin = Some (status, ctx', printed, events) ∧
    contexts w' = <[Go.contextPtr e := ctx']> (contexts w) ∧
    values w' = values w ∧
    stdout w' = stdout w ++ printed ∧
    trace w' = trace w ++ call_events token events.
Proof.
  intros Hl Hc. rewrite (Go_LoadModule_run _ _ _ _ _ _ _ Hl Hc). cbv zeta.
  destruct (LoadModule_outcome _ _ _ _ _ _)
    as [[[[status0 ctx'] printed] events]|]; [| done].
  intros [= <- <-]. by eexists _, _, _.
Qed.

(** ** The events of a module load *)




Lemma resolver_calls_app (a b : list event) :
  resolver_calls (a ++ b) = resolver_calls a ++ resolver_calls b.
Proof. apply omap_app. Qed.

Lemma call_events_resolver_calls (token : Z) (events : list event) :
  resolver_calls (call_events token events) = resolver_calls events.
Proof.
  unfold call_events. cbn [app resolver_calls omap list_omap].
  rewrite resolver_calls_app. cbn. apply app_nil_r.
Qed.






(** ** Resolution under a token without an entry *)

(** C10. [ResolveModule] under a token that has no entry in the resolver
    table returns a null module name and status 1; the only events are the
    lock, the table read and the unlock, so no host resolver is invoked.
    A module load under such a token that has a dependency to resolve
    returns 1 the same way. *)
Theorem ResolveModule_missing_token
    (specifier referrer : string) (token : Z) (w : World) :
  resolverTableLock w = false →
  resolverFuncs w !! token = None →
  let w' := set_trace (trace w ++ [EvLock; EvTableLoad token; EvUnlock]) w in
  ResolveModule specifier referrer token w = Some ((None, 1), w') ∧
  resolver_calls (trace w') = resolver_calls (trace w) ∧
  ∀ v8 ptr ctx source_s name_s module dependency rest,
    contexts w !! ptr = Some ctx →
    CompileModule v8 (c_str source_s) (c_str name_s) = inl module →
    GetModuleRequests module = dependency :: rest →
    Cpp.LoadModule v8 ptr source_s name_s token w = Some (1, w').
Proof.
  intros Hl Ht w'. split; [| split].
  - rewrite (ResolveModule_run _ _ _ _ Hl), Ht. done.
  - unfold w', resolver_calls. simpl. rewrite omap_app. simpl.
    by rewrite app_nil_r.
  - intros v8 ptr ctx source_s name_s module dependency rest Hc Hm Hr.
    unfold Cpp.LoadModule, bind at 1, deref_ctx. rewrite Hc, Hm.
    unfold bind at 1.
    rewrite (resolve_requests_run v8 _ _ _ _ _ _ _ Hl Hc), Hr, Ht.
    done.
Qed.

Lemma ResolveModule_missing_token_witness :
  ResolveModule "dep.js" "main.js" 5 one_engine =
    Some ((None, 1),
          set_trace [EvLock; EvTableLoad 5; EvUnlock] one_engine).
Proof.
  exact (proj1 (ResolveModule_missing_token "dep.js" "main.js" 5 one_engine
                  eq_refl eq_refl)).
Defined.

(** ** Resolver tokens *)













(** ** The status of a module load *)

Lemma requests_run_spec token r registry name_s requests table :
  fits_C_int r →
  (requests_run token r registry name_s requests table).1 =
    match resolve_dependencies r registry (c_str name_s) requests table with
    | ResolverFailed status => inl status
    | UnknownModule => inl 2
    | Resolved table' => inr table'
    end.
Proof.
  intros Hfit. revert table.
  induction requests as [|d rest IH]; intros table; [done |].
  cbn [requests_run resolve_dependencies]. unfold resolve_answer.
  destruct r as [resolve|]; [| done].
  simpl in Hfit. rewrite c_str_idemp, Hfit.
  destruct (resolve (c_str d) (c_str name_s)) as [canon status].
  cbn [fst snd].
  destruct status as [|p|p]; try done. cbn [Z.eqb].
  destruct (registry !! c_str canon) as [m|]; [| done].
  rewrite <- IH.
  by destruct (requests_run token (Some resolve) registry name_s rest
                 (<[c_str d := m]> table)).
Qed.







(** ** Unresolved dependencies *)

Lemma requests_run_unresolved token r registry name_s requests table :
  (∃ d, d ∈ requests ∧ unresolvable r registry (c_str name_s) d) →
  ∃ status events,
    requests_run token r registry name_s requests table =
      (inl status, events) ∧
    status ≠ 0 ∧
    (status = 2 ∨
     match r with
     | None => status = 1
     | Some resolve =>
         ∃ d, d ∈ requests ∧
              status = C_int (resolve (c_str d) (c_str name_s)).2
     end).
Proof.
  revert table. induction requests as [|d0 rest IH]; intros table [d [Hin Hu]].
  - by apply elem_of_nil in Hin.
  - cbn [requests_run]. unfold resolve_answer.
    destruct r as [resolve|].
    + rewrite c_str_idemp. simpl in Hu.
      destruct (C_int (resolve (c_str d0) (c_str name_s)).2) as [|p|p] eqn:Hst.
      * destruct (registry !! c_str (resolve (c_str d0) (c_str name_s)).1)
          as [m|] eqn:Hm.
        -- assert (Hrest : ∃ d, d ∈ rest ∧
                     unresolvable (Some resolve) registry (c_str name_s) d).
           { apply elem_of_cons in Hin as [-> | Hin]; [| by exists d].
             destruct Hu as [Hu | Hu]; [by rewrite Hst in Hu |].
             by rewrite Hm in Hu. }
           destruct (IH (<[c_str d0 := m]> table) Hrest)
             as (status & events' & Hrun & H0 & Hs).
           rewrite Hrun. eexists status, _. split; [reflexivity |].
           split; [done |].
           destruct Hs as [Hs | (d' & Hd' & Hs)]; [by left | right].
           exists d'. split; [by apply list_elem_of_further | done].
        -- eexists 2, _. split; [reflexivity |]. split; [done | by left].
      * eexists (Z.pos p), _. split; [reflexivity |]. split; [done |].
        right. exists d0. split; [apply list_elem_of_here | by rewrite Hst].
      * eexists (Z.neg p), _. split; [reflexivity |]. split; [done |].
        right. exists d0. split; [apply list_elem_of_here | by rewrite Hst].
    + eexists 1, _. split; [reflexivity |]. split; [done | by right].
Qed.

(** C3, as the code has it.  Take a module load made while the resolver
    table lock is free, on a live context, with a token that fits a C
    [int] (the counter is below 2^31 - 1).  When the module compiles and
    one of its dependencies cannot be resolved (for it the resolver
    returns a status that is not 0 once converted to a C [int], or names a
    module that is not in the registry; without a resolver no dependency
    can be resolved), the load returns a status that is not 0: either 2,
    or the status that the resolver returned for one of the dependencies,
    converted to a C [int] (1 when there is no resolver); and it leaves
    every context, so every registry, as it was. *)
Theorem LoadModule_unresolved
    (v8 : V8) (e : Go.Engine) (source origin : string)
    (resolve : option ModuleResolverCallback) (ctx : m_ctx) (w : World)
    (module : JSModule) :
  resolverTableLock w = false →
  contexts w !! Go.contextPtr e = Some ctx →
  - 2147483648 ≤ nextResolverToken w + 1 < 2147483648 →
  CompileModule v8 (c_str source) (c_str origin) = inl module →
  (∃ d, d ∈ GetModuleRequests module ∧
        unresolvable resolve (modules ctx) (c_str origin) d) →
  ∃ status w',
    Go.LoadModule v8 e source origin resolve w = Some (status, w') ∧
    status ≠ 0 ∧
    (status = 2 ∨
     match resolve with
     | None => status = 1
     | Some resolve' =>
         ∃ d, d ∈ GetModuleRequests module ∧
              status = C_int (resolve' (c_str d) (c_str origin)).2
     end) ∧
    contexts w' = contexts w.
Proof.
  intros Hl Hc Hn Hcomp Hun.
  rewrite (Go_LoadModule_run v8 e source origin resolve ctx w Hl Hc).
  cbv zeta. rewrite Go_int_small by lia.
  set (token := nextResolverToken w + 1).
  rewrite (C_int_small token) by done.
  rewrite lookup_insert_eq. cbn [default from_option id].
  change (id resolve) with resolve.
  unfold LoadModule_outcome. rewrite Hcomp.
  destruct (requests_run_unresolved token resolve (modules ctx) origin
              (GetModuleRequests module) ∅ Hun)
    as (status & events & Hrun & H0 & Hs).
  rewrite Hrun. eexists status, _. split; [reflexivity |].
  split; [done |]. split; [done |]. simpl. by apply insert_id.
Qed.

Lemma LoadModule_unresolved_witness :
  ∃ status w',
    Go.LoadModule sample_v8 the_engine "import 'dep.js';" "main.js"
      (Some (λ _ _, ("dep.js", 0))) one_engine = Some (status, w') ∧
    status = 2 ∧
    contexts w' = contexts one_engine.
Proof.
  destruct (LoadModule_unresolved sample_v8 the_engine "import 'dep.js';"
              "main.js" (Some (λ _ _, ("dep.js", 0)))
              {| m_ctx_cb := None; modules := ∅; resolved := ∅ |}
              one_engine
              {| GetIdentityHash := 7; GetModuleRequests := ["dep.js"];
                 module_origin := "main.js" |})
    as (status & w' & Hrun & H0 & Hs & Hctx).
  - reflexivity.
  - reflexivity.
  - simpl. lia.
  - reflexivity.
  - exists "dep.js". split; [apply list_elem_of_here |]. right. reflexivity.
  - exists status, w'. split; [exact Hrun |]. split; [| exact Hctx].
    destruct Hs as [Hs | (d & Hd & Hs)]; [exact Hs |].
    exfalso. apply H0. rewrite Hs. reflexivity.
Defined.

(** C3, as stated, fails: the dependency of this module cannot be
    resolved (the resolver reports status 7), and the load returns 7,
    which is neither 1 nor 2. *)
Lemma LoadModule_unresolved_not_1_or_2 :
  unresolvable (Some failing_resolver) ∅ "main.js" "dep.js" ∧
  ∃ status w',
    Go.LoadModule sample_v8 the_engine "import 'dep.js';" "main.js"
      (Some failing_resolver) one_engine = Some (status, w') ∧
    ¬ (status = 1 ∨ status = 2).
Proof.
  split; [left; intros H; vm_compute in H; discriminate H |].
  eexists 7, _. split; [| intros [H | H]; discriminate H].
  rewrite (Go_LoadModule_run _ _ _ _ _
             {| m_ctx_cb := None; modules := ∅; resolved := ∅ |});
    reflexivity.
Qed.

(** ** Running a script *)

Lemma Run_run (v8 : V8) (ptr : Z) (source origin : string)
    (ctx : m_ctx) (w : World) :
  contexts w !! ptr = Some ctx →
  Cpp.Run v8 ptr source origin w =
    match Script_Compile v8 (c_str source) (c_str source) with
    | inr try_catch =>
        Some ({| value := nullptr;
                 error := Cpp.ExceptionError try_catch |}, w)
    | inl script =>
        let x := Script_Run v8 script in
        if safe x then
          let w1 := set_contexts
                      (<[ptr := apply_calls ctx (host_calls x)]> (contexts w))
                      w in
          match completion x with
          | inr try_catch =>
              Some ({| value := nullptr;
                       error := Cpp.ExceptionError try_catch |}, w1)
          | inl result =>
              let p := fresh ({[nullptr]} ∪ dom (values w)) in
              Some ({| value := p;
                       error := {| msg := None; location := None;
                                   stack := None |} |},
                    set_values
                      (<[p := {| m_value_ptr := result; context := ptr |}]>
                         (values w)) w1)
          end
        else None
    end.
Proof.
  intros Hc. unfold Cpp.Run, bind at 1, deref_ctx. rewrite Hc.
  destruct (Script_Compile v8 (c_str source) (c_str source))
    as [script | try_catch]; [| done].
  unfold bind at 1. rewrite (execute_run _ _ _ _ Hc). cbv zeta.
  destruct (safe (Script_Run v8 script)); [| done].
  by destruct (completion (Script_Run v8 script)).
Qed.

(** C1.  [Run] never reads its [origin] argument: the script is compiled
    under its own source text as resource name.  So the script
    [throw new Error('boom')] run as ["test.js"] gets the location
    [throw new Error('boom'):1:1], in which ["test.js"] does not occur. *)
Theorem Run_origin_is_source :
  (∀ v8 ptr source origin origin' w,
     Cpp.Run v8 ptr source origin w = Cpp.Run v8 ptr source origin' w) ∧
  (∃ w',
     Go.Run sample_v8 the_engine "throw new Error('boom')" "test.js"
       one_engine =
     Some ((None,
            Some {| Go.Message := "Error: boom";
                    Go.Location := "throw new Error('boom'):1:1";
                    Go.StackTrace :=
                      "Error: boom" +:+ String (Ascii.ascii_of_nat 10)
                        "    at throw new Error('boom'):1:7" |}), w')) ∧
  String.index 0 "test.js" "throw new Error('boom'):1:1" = None.
Proof.
  split; [done |]. split; [| reflexivity].
  eexists. unfold Go.Run, bind.
  rewrite (Run_run _ _ _ _ {| m_ctx_cb := None; modules := ∅;
                              resolved := ∅ |}); reflexivity.
Qed.

(** C7.  A script that compiles and then throws an exception whose string
    conversion is empty (as [throw ''] does) makes [Run] return neither a
    value nor an error: the message pointer is null, and [getError] takes
    a null message for the absence of an error. *)
Theorem Run_empty_exception
    (v8 : V8) (e : Go.Engine) (source origin : string) (ctx : m_ctx)
    (w : World) (script : Script) (try_catch : TryCatch) :
  contexts w !! Go.contextPtr e = Some ctx →
  Script_Compile v8 (c_str source) (c_str source) = inl script →
  safe (Script_Run v8 script) = true →
  completion (Script_Run v8 script) = inr try_catch →
  HasTerminated try_catch = false →
  Exception try_catch = "" →
  ∃ w', Go.Run v8 e source origin w = Some ((None, None), w').
Proof.
  intros Hc Hs Hsafe Hx Ht He. unfold Go.Run, bind, CString.
  rewrite (Run_run _ _ _ _ _ _ Hc), Hs. cbv zeta. rewrite Hsafe, Hx.
  eexists. unfold ret, Go.getValue, Go.getError, Cpp.ExceptionError.
  rewrite Ht, He. reflexivity.
Qed.

Lemma Run_empty_exception_witness :
  ∃ w', Go.Run sample_v8 the_engine "throw ''" "test.js" one_engine =
        Some ((None, None), w').
Proof.
  apply (Run_empty_exception sample_v8 the_engine "throw ''" "test.js"
           {| m_ctx_cb := None; modules := ∅; resolved := ∅ |} one_engine
           {| script_source := "throw ''"; script_origin := "throw ''" |}
           {| HasTerminated := false; Exception := "";
              GetMessage := Some {| ResourceName := "throw ''";
                                    GetLineNumber := Some 1;
                                    GetStartColumn := Some 0 |};
              StackTrace := None |}); reflexivity.
Defined.

(** ** The message channel *)

Lemma Send_run (v8 : V8) (ptr length : Z) (data : list Byte.byte)
    (ctx : m_ctx) (w : World) :
  contexts w !! ptr = Some ctx →
  Cpp.Send v8 ptr length data w =
    match m_ctx_cb ctx with
    | None => Some (2, w)
    | Some f =>
        let args := [ArrayBuffer (take (Z.to_nat length) data)] in
        let x := Function_Call v8 f args in
        if safe x then
          let ctx' := apply_calls ctx (host_calls x) in
          match completion x with
          | inr try_catch =>
              if printable try_catch then
                Some (3, world_after w ptr ctx'
                           [msg (Cpp.ExceptionError try_catch);
                            stack (Cpp.ExceptionError try_catch)]
                           [EvCall f args])
              else None
          | inl _ => Some (0, world_after w ptr ctx' [] [EvCall f args])
          end
        else None
    end.
Proof.
  intros Hc. unfold Cpp.Send, bind at 1, deref_ctx. rewrite Hc.
  destruct (m_ctx_cb ctx) as [f|]; [| done].
  unfold bind at 1, emit, modify. unfold bind at 1.
  rewrite (execute_run _ _ ctx); [| done]. cbv zeta.
  destruct (safe _); [| done].
  destruct (completion _) as [v|try_catch].
  - unfold ret. f_equal. f_equal. unfold world_after. world_eq.
  - unfold bind, printf, printable, reportable.
    destruct (msg (Cpp.ExceptionError try_catch)); [| done].
    unfold modify. cbn [stdout set_stdout andb].
    destruct (stack (Cpp.ExceptionError try_catch)); [| done].
    unfold ret. f_equal. f_equal. unfold world_after. world_eq.
Qed.

(** C4, as the code has it.  [Send] returns 2 when the slot of the
    context holds no callback, whatever the payload, and then does
    nothing else.  With a callback in the slot it returns 0 when the call
    returns; when the call throws an exception that has a message that is
    not empty and a stack trace that is not empty, it prints both and
    returns 3; when the call throws any other exception (one without a
    stack trace, such as a thrown number, or the termination of the
    execution), a null pointer reaches [printf] and [Send] does not
    return. *)
Theorem Send_status (v8 : V8) (ptr length : Z) (data : list Byte.byte)
    (ctx : m_ctx) (w : World) :
  contexts w !! ptr = Some ctx →
  (m_ctx_cb ctx = None → Cpp.Send v8 ptr length data w = Some (2, w)) ∧
  (∀ f, m_ctx_cb ctx = Some f →
     let x := Function_Call v8 f
                [ArrayBuffer (take (Z.to_nat length) data)] in
     safe x = true →
     (∀ try_catch, completion x = inr try_catch →
        printable try_catch = true →
        ∃ w', Cpp.Send v8 ptr length data w = Some (3, w') ∧
              stdout w' = stdout w ++
                          [msg (Cpp.ExceptionError try_catch);
                           stack (Cpp.ExceptionError try_catch)]) ∧
     (∀ try_catch, completion x = inr try_catch →
        printable try_catch = false →
        Cpp.Send v8 ptr length data w = None) ∧
     (∀ v, completion x = inl v →
        ∃ w', Cpp.Send v8 ptr length data w = Some (0, w') ∧
              stdout w' = stdout w)).
Proof.
  intros Hc. rewrite (Send_run _ _ _ _ _ _ Hc). split.
  - by intros ->.
  - intros f -> x Hs. cbv zeta. fold x. rewrite Hs. split; [| split].
    + intros try_catch -> ->. eexists. split; [reflexivity | done].
    + by intros try_catch -> ->.
    + intros v ->. eexists. split; [reflexivity |]. simpl.
      by rewrite app_nil_r.
Qed.

Lemma Send_status_witness :
  Cpp.Send sample_v8 1 3 [Byte.x01; Byte.x02; Byte.x03] one_engine =
    Some (2, one_engine) ∧
  (∃ w', Cpp.Send erroring_v8 1 3 [Byte.x01; Byte.x02; Byte.x03]
           (world_with (Some (Fn 5))) = Some (3, w') ∧
         stdout w' = [Some "Error: in callback";
                      Some "Error: in callback at cb.js:3:5"]) ∧
  Cpp.Send sample_v8 1 3 [Byte.x01; Byte.x02; Byte.x03]
    (world_with (Some (Fn 2))) = None ∧
  (∃ w', Cpp.Send sample_v8 1 3 [Byte.x01; Byte.x02; Byte.x03]
           (world_with (Some (Fn 1))) = Some (0, w')).
Proof.
  split; [| split; [| split]].
  - apply (Send_status sample_v8 1 3 [Byte.x01; Byte.x02; Byte.x03]
             {| m_ctx_cb := None; modules := ∅; resolved := ∅ |}
             one_engine); reflexivity.
  - destruct (Send_status erroring_v8 1 3 [Byte.x01; Byte.x02; Byte.x03]
                {| m_ctx_cb := Some (Fn 5); modules := ∅; resolved := ∅ |}
                (world_with (Some (Fn 5))) eq_refl) as [_ H].
    destruct (H (Fn 5) eq_refl eq_refl) as [H3 _].
    destruct (H3 _ eq_refl eq_refl) as [w' [Hrun Hout]].
    exists w'. split; [exact Hrun | exact Hout].
  - destruct (Send_status sample_v8 1 3 [Byte.x01; Byte.x02; Byte.x03]
                {| m_ctx_cb := Some (Fn 2); modules := ∅; resolved := ∅ |}
                (world_with (Some (Fn 2))) eq_refl) as [_ H].
    destruct (H (Fn 2) eq_refl eq_refl) as [_ [Hnone _]].
    exact (Hnone _ eq_refl eq_refl).
  - destruct (Send_status sample_v8 1 3 [Byte.x01; Byte.x02; Byte.x03]
                {| m_ctx_cb := Some (Fn 1); modules := ∅; resolved := ∅ |}
                (world_with (Some (Fn 1))) eq_refl) as [_ H].
    destruct (H (Fn 1) eq_refl eq_refl) as [_ [_ H0]].
    destruct (H0 _ eq_refl) as [w' [Hrun _]]. by exists w'.
Defined.

Lemma apply_calls_last (ctx : m_ctx) (calls : list (list Value))
    (f : Function) (rest : list Value) :
  m_ctx_cb (apply_calls ctx (calls ++ [FunctionValue f :: rest])) = Some f.
Proof.
  revert ctx. induction calls as [|args calls IH]; intros ctx; [done |].
  simpl. by destruct (default Undefined (args !! 0%nat)).
Qed.



(** ** Disposal of values *)

(** C9.  Disposing the null handle does nothing.  Finalizing a live value
    frees its handle and leaves the null handle in the [Value]; finalizing
    it a second time returns as well and changes nothing. *)
Theorem Value_finalizer_idempotent :
  (∀ w, Cpp.DisposeValue nullptr w = Some (tt, w)) ∧
  (∀ v w val ctx,
     Go.ptr v ≠ nullptr →
     values w !! Go.ptr v = Some val →
     context val ≠ nullptr →
     contexts w !! context val = Some ctx →
     ∃ v1 w1,
       Go.Value_finalizer v w = Some (v1, w1) ∧
       values w1 = delete (Go.ptr v) (values w) ∧
       Go.Value_finalizer v1 w1 = Some (v1, w1)) ∧
  (∀ v w v1 w1,
     Go.Value_finalizer v w = Some (v1, w1) →
     Go.Value_finalizer v1 w1 = Some (v1, w1)).
Proof.
  split; [done |]. split.
  - intros v w val ctx Hp Hv Hn Hc.
    unfold Go.Value_finalizer, bind, Cpp.DisposeValue.
    destruct (Z.eqb_spec (Go.ptr v) nullptr) as [? | _]; [done |].
    unfold bind, Cpp.deref_value. rewrite Hv.
    destruct (Z.eqb_spec (context val) nullptr) as [? | _]; [done |].
    unfold bind, deref_ctx. rewrite Hc. unfold modify, ret.
    eexists _, _. split; [reflexivity |]. split; reflexivity.
  - intros v w v1 w1. unfold Go.Value_finalizer, bind.
    destruct (Cpp.DisposeValue (Go.ptr v) w) as [[[] w']|]; [| done].
    unfold ret. intros [= <- <-]. reflexivity.
Qed.

Lemma Value_finalizer_idempotent_witness :
  ∃ w1,
    Go.Value_finalizer {| Go.ptr := 1 |} world_with_value =
      Some ({| Go.ptr := nullptr |}, w1) ∧
    values w1 = ∅ ∧
    Go.Value_finalizer {| Go.ptr := nullptr |} w1 =
      Some ({| Go.ptr := nullptr |}, w1).
Proof.
  destruct Value_finalizer_idempotent as (_ & H & _).
  destruct (H {| Go.ptr := 1 |} world_with_value
              {| m_value_ptr := Primitive "2"; context := 1 |}
              {| m_ctx_cb := None; modules := ∅; resolved := ∅ |})
    as (v1 & w1 & Hrun & Hval & Hagain); [done | done | done | done |].
  assert (Hv1 : v1 = {| Go.ptr := nullptr |}).
  { unfold Go.Value_finalizer, bind in Hrun.
    destruct (Cpp.DisposeValue _ _) as [[[] w']|]; [| discriminate Hrun].
    by injection Hrun as <- _. }
  subst v1. exists w1. split; [exact Hrun |]. split; [| exact Hagain].
  rewrite Hval. reflexivity.
Defined.

(** * Further properties of the bridge *)

(** ** Contexts *)

Lemma fresh_address {A} (m : gmap Z A) :
  fresh ({[nullptr]} ∪ dom m) ≠ nullptr ∧
  m !! fresh ({[nullptr]} ∪ dom m) = None.
Proof.
  pose proof (is_fresh ({[nullptr]} ∪ dom m)) as Hf.
  split.
  - intros Heq. apply Hf. rewrite Heq. apply elem_of_union_l.
    by apply elem_of_singleton.
  - apply not_elem_of_dom. intros Hin. apply Hf. by apply elem_of_union_r.
Qed.

(** X2. On an engine that was just created, [Send] fails with the error
    of status 2 whatever the message, and changes nothing. *)
Theorem NewEngine_then_Send (v8 : V8) (msg : list Byte.byte) (w : World) :
  ∃ e w',
    Go.NewEngine w = Some (e, w') ∧
    Go.Send v8 e msg w' = Some (Some "expected 0, got 2", w').
Proof.
  exists {| Go.contextPtr := fresh ({[nullptr]} ∪ dom (contexts w)) |}.
  eexists. split; [reflexivity |].
  unfold Go.Send, bind.
  rewrite (Send_run _ _ _ _ new_ctx); [reflexivity |].
  simpl. apply lookup_insert_eq.
Qed.

(** ** Scripts and their values *)

Lemma GoString_CopyString_Utf8Value (s : string) :
  GoString (Cpp.CopyString_Utf8Value s) = c_str s.
Proof.
  unfold Cpp.CopyString_Utf8Value. destruct s as [|c s]; [done |].
  simpl Nat.eqb. cbv iota. unfold Cpp.CopyString, GoString.
  apply c_str_idemp.
Qed.



(** X5. A value returned by [Run] is a fresh handle that points back to
    the context of the engine; finalizing it frees the handle, so that
    the value heap is again what it was before the run. *)
Theorem Run_then_finalizer
    (v8 : V8) (e : Go.Engine) (source origin : string) (ctx : m_ctx)
    (w : World) (script : Script) (result : Value) :
  Go.contextPtr e ≠ nullptr →
  contexts w !! Go.contextPtr e = Some ctx →
  Script_Compile v8 (c_str source) (c_str source) = inl script →
  safe (Script_Run v8 script) = true →
  completion (Script_Run v8 script) = inl result →
  ∃ v w1 w2,
    Go.Run v8 e source origin w = Some ((Some v, None), w1) ∧
    values w !! Go.ptr v = None ∧
    values w1 = <[Go.ptr v := {| m_value_ptr := result;
                                 context := Go.contextPtr e |}]> (values w) ∧
    Go.Value_finalizer v w1 = Some ({| Go.ptr := nullptr |}, w2) ∧
    values w2 = values w ∧
    contexts w2 = contexts w1.
Proof.
  intros Hp Hc Hcomp Hs Hr. unfold Go.Run, bind, CString.
  rewrite (Run_run _ _ _ _ _ _ Hc), Hcomp. cbv zeta. rewrite Hs, Hr.
  destruct (fresh_address (values w)) as [Hn Hf].
  set (p := fresh ({[nullptr]} ∪ dom (values w))) in *.
  unfold ret, Go.getValue, Go.getError. simpl.
  destruct (Z.eqb_spec p nullptr) as [? | _]; [done |].
  eexists _, _, _. split; [reflexivity |]. simpl.
  split; [exact Hf |]. split; [reflexivity |].
  unfold Go.Value_finalizer, bind, Cpp.DisposeValue. simpl.
  destruct (Z.eqb_spec p nullptr) as [? | _]; [done |].
  unfold bind, Cpp.deref_value. simpl. rewrite lookup_insert_eq. simpl.
  destruct (Z.eqb_spec (Go.contextPtr e) nullptr) as [? | _]; [done |].
  unfold bind, deref_ctx. simpl. rewrite lookup_insert_eq.
  unfold modify, ret. simpl.
  split; [reflexivity |]. split; [| reflexivity].
  rewrite delete_insert_eq. by apply delete_id.
Qed.

Lemma Run_then_finalizer_witness :
  ∃ v w1 w2,
    Go.Run sample_v8 the_engine "1+1" "test.js" one_engine =
      Some ((Some v, None), w1) ∧
    Go.Value_finalizer v w1 = Some ({| Go.ptr := nullptr |}, w2) ∧
    values w2 = ∅.
Proof.
  destruct (Run_then_finalizer sample_v8 the_engine "1+1" "test.js"
              new_ctx one_engine
              {| script_source := "1+1"; script_origin := "1+1" |}
              (Primitive "2"))
    as (v & w1 & w2 & Hrun & _ & _ & Hfin & Hval & _);
    [done | done | done | done | done |].
  exists v, w1, w2. split; [exact Hrun |]. split; [exact Hfin | exact Hval].
Defined.

Lemma getError_ExceptionError (v : Z) (try_catch : TryCatch) :
  HasTerminated try_catch = true ∨ Exception try_catch ≠ "" →
  ∃ err,
    Go.getError {| value := v; error := Cpp.ExceptionError try_catch |} =
      Some err ∧
    Go.Message err =
      (if HasTerminated try_catch
       then "ExecutionTerminated: script execution has been terminated"
       else c_str (Exception try_catch)) ∧
    Go.Location err = GoString (location (Cpp.ExceptionError try_catch)) ∧
    Go.StackTrace err = GoString (stack (Cpp.ExceptionError try_catch)).
Proof.
  intros H. unfold Go.getError, Cpp.ExceptionError.
  destruct (HasTerminated try_catch).
  - eexists. split; [reflexivity |]. by repeat split.
  - destruct H as [H | H]; [done |]. cbn [error msg].
    pose proof (GoString_CopyString_Utf8Value (Exception try_catch)) as Hg.
    unfold Cpp.CopyString_Utf8Value in *.
    destruct (Exception try_catch) as [|c s]; [done |].
    simpl Nat.eqb in *. cbv iota in *. unfold Cpp.CopyString in *.
    eexists. split; [reflexivity |]. by repeat split.
Qed.

(** X6. A script that fails to compile, or that throws, makes [Run]
    return no value and an error, provided the execution was terminated
    or the string conversion of the exception is not empty; the message of
    the error is that conversion read as a C string (the fixed message
    for a termination). *)
Theorem Run_reports_error
    (v8 : V8) (e : Go.Engine) (source origin : string) (ctx : m_ctx)
    (w : World) (try_catch : TryCatch) :
  contexts w !! Go.contextPtr e = Some ctx →
  (Script_Compile v8 (c_str source) (c_str source) = inr try_catch ∨
   ∃ script,
     Script_Compile v8 (c_str source) (c_str source) = inl script ∧
     safe (Script_Run v8 script) = true ∧
     completion (Script_Run v8 script) = inr try_catch) →
  HasTerminated try_catch = true ∨ Exception try_catch ≠ "" →
  ∃ err w',
    Go.Run v8 e source origin w = Some ((None, Some err), w') ∧
    values w' = values w ∧
    Go.Message err =
      (if HasTerminated try_catch
       then "ExecutionTerminated: script execution has been terminated"
       else c_str (Exception try_catch)).
Proof.
  intros Hc Hfail Hmsg. unfold Go.Run, bind, CString.
  rewrite (Run_run _ _ _ _ _ _ Hc).
  destruct (getError_ExceptionError nullptr try_catch Hmsg)
    as (err & Herr & Hm & _).
  destruct Hfail as [Hcomp | (script & Hcomp & Hs & Hr)]; rewrite Hcomp.
  - unfold ret. rewrite Herr. by eexists _, _.
  - cbv zeta. rewrite Hs, Hr. unfold ret. rewrite Herr. by eexists _, _.
Qed.

Lemma Run_reports_error_witness :
  ∃ err w',
    Go.Run sample_v8 the_engine "throw new Error('boom')" "test.js"
      one_engine = Some ((None, Some err), w') ∧
    Go.Message err = "Error: boom".
Proof.
  destruct (Run_reports_error sample_v8 the_engine "throw new Error('boom')"
              "test.js" new_ctx one_engine
              {| HasTerminated := false; Exception := "Error: boom";
                 GetMessage :=
                   Some {| ResourceName := "throw new Error('boom')";
                           GetLineNumber := Some 1;
                           GetStartColumn := Some 0 |};
                 StackTrace :=
                   Some ("Error: boom" +:+ String (Ascii.ascii_of_nat 10)
                           "    at throw new Error('boom'):1:7") |})
    as (err & w' & Hrun & _ & Hm).
  - reflexivity.
  - right. eexists. split; [reflexivity |]. split; reflexivity.
  - right. discriminate.
  - exists err, w'. split; [exact Hrun | exact Hm].
Defined.

(** X7. The string of a value returned by [Run] is the engine's string
    conversion of the script's result, read as a C string (so the empty
    string when the conversion is empty); taking it changes nothing. *)
Theorem Run_then_String
    (v8 : V8) (Utf8Value : Value → string) (e : Go.Engine)
    (source origin : string) (ctx : m_ctx) (w : World)
    (script : Script) (result : Value) :
  contexts w !! Go.contextPtr e = Some ctx →
  Script_Compile v8 (c_str source) (c_str source) = inl script →
  safe (Script_Run v8 script) = true →
  completion (Script_Run v8 script) = inl result →
  ∃ v w1,
    Go.Run v8 e source origin w = Some ((Some v, None), w1) ∧
    Go.Value_String Utf8Value v w1 = Some (c_str (Utf8Value result), w1).
Proof.
  intros Hc Hcomp Hs Hr. unfold Go.Run, bind, CString.
  rewrite (Run_run _ _ _ _ _ _ Hc), Hcomp. cbv zeta. rewrite Hs, Hr.
  destruct (fresh_address (values w)) as [Hn Hf].
  set (p := fresh ({[nullptr]} ∪ dom (values w))) in *.
  unfold ret, Go.getValue, Go.getError. simpl.
  destruct (Z.eqb_spec p nullptr) as [? | _]; [done |].
  eexists _, _. split; [reflexivity |].
  unfold Go.Value_String, bind, Cpp.ValueToString, bind, Cpp.deref_value.
  simpl. rewrite lookup_insert_eq. unfold deref_ctx. simpl.
  rewrite lookup_insert_eq. unfold ret.
  by rewrite GoString_CopyString_Utf8Value.
Qed.

Lemma Run_then_String_witness :
  ∃ v w1,
    Go.Run sample_v8 the_engine "1+1" "test.js" one_engine =
      Some ((Some v, None), w1) ∧
    Go.Value_String sample_Utf8Value v w1 = Some ("2", w1).
Proof.
  apply (Run_then_String sample_v8 sample_Utf8Value the_engine "1+1"
           "test.js" new_ctx one_engine
           {| script_source := "1+1"; script_origin := "1+1" |}
           (Primitive "2")); reflexivity.
Defined.

(** ** Printing *)

Lemma Fprint_loop_text
    (Utf8Value : Value → string) (args : list Value) (first : bool)
    (tail : list (option string)) (t : string) :
  Forall (λ arg, Utf8Value arg ≠ "") args →
  text tail = Some t →
  text (Cpp.Fprint_loop Utf8Value first args ++ tail) =
    Some ((match args with
           | [] => ""
           | _ :: _ =>
               (if first then "" else " ") +:+
               joined ((λ arg, c_str (Utf8Value arg)) <$> args)
           end) +:+ t).
Proof.
  intros Hall Ht. revert first.
  induction Hall as [|arg rest Harg Hrest IH]; intros first; [done |].
  cbn [Cpp.Fprint_loop]. rewrite <- !app_assoc.
  assert (Hcopy : Cpp.CopyString_Utf8Value (Utf8Value arg) =
                  Some (c_str (Utf8Value arg))).
  { unfold Cpp.CopyString_Utf8Value.
    destruct (Utf8Value arg) as [|c s]; [done | reflexivity]. }
  rewrite Hcopy.
  assert (Hstep : text ([Some (c_str (Utf8Value arg))] ++
                        Cpp.Fprint_loop Utf8Value false rest ++ tail) =
                  Some (joined ((λ a, c_str (Utf8Value a)) <$> arg :: rest)
                        +:+ t)).
  { cbn [app text]. rewrite (IH false). cbn [fmap option_fmap option_map].
    f_equal. rewrite c_str_idemp. cbn [fmap list_fmap joined].
    destruct rest as [|arg' rest']; [done |].
    cbn [fmap list_fmap]. by rewrite !append_assoc. }
  cbn [app] in Hstep. destruct first.
  - cbn [app]. etransitivity; [exact Hstep | reflexivity].
  - cbn [app]. change (text (Some " " :: ?l)) with
      ((λ t0, c_str " " +:+ t0) <$> text l).
    etransitivity; [apply (f_equal (fmap _)); exact Hstep |].
    reflexivity.
Qed.

(** X8. [Fprint] writes the string conversions of its arguments, read as
    C strings, separated by single spaces and followed by a newline, when
    no conversion is empty; an argument whose conversion is empty is
    handed to [fprintf] as a null pointer, not as an empty string. *)
Theorem Fprint_text (Utf8Value : Value → string) (args : list Value) :
  (Forall (λ arg, Utf8Value arg ≠ "") args →
   text (Cpp.Fprint Utf8Value args) =
     Some (joined ((λ arg, c_str (Utf8Value arg)) <$> args) +:+
           String (Ascii.ascii_of_nat 10) "")) ∧
  (∀ arg, arg ∈ args → Utf8Value arg = "" →
          None ∈ Cpp.Fprint Utf8Value args ∧
          text (Cpp.Fprint Utf8Value args) = None).
Proof.
  split.
  - intros Hall. unfold Cpp.Fprint.
    rewrite (Fprint_loop_text Utf8Value args true _
               (String (Ascii.ascii_of_nat 10) "") Hall); [| reflexivity].
    destruct args; reflexivity.
  - intros arg Hin Hempty. unfold Cpp.Fprint.
    assert (H : ∀ first tail,
              None ∈ Cpp.Fprint_loop Utf8Value first args ++ tail ∧
              text (Cpp.Fprint_loop Utf8Value first args ++ tail) = None).
    { induction args as [|a rest IH]; intros first tail.
      - by apply elem_of_nil in Hin.
      - cbn [Cpp.Fprint_loop]. rewrite <- !app_assoc.
        apply elem_of_cons in Hin as [<- | Hin].
        + rewrite Hempty. cbn [Cpp.CopyString_Utf8Value String.length Nat.eqb].
          destruct first; cbn [app text]; split; try done.
          * apply list_elem_of_here.
          * apply list_elem_of_further, list_elem_of_here.
        + destruct (IH Hin false tail) as [H1 H2].
          destruct (Cpp.CopyString_Utf8Value (Utf8Value a)) as [s|].
          * destruct first; cbn [app text]; rewrite ?H2; split; try done.
            -- by apply list_elem_of_further.
            -- by do 2 apply list_elem_of_further.
          * destruct first; cbn [app text]; split; try done.
            -- apply list_elem_of_here.
            -- apply list_elem_of_further, list_elem_of_here. }
    apply H.
Qed.

Lemma Fprint_text_witness :
  text (Cpp.Fprint sample_Utf8Value [Primitive "a"; Undefined; Primitive "b"])
    = Some ("a undefined b" +:+ String (Ascii.ascii_of_nat 10) "") ∧
  text (Cpp.Fprint sample_Utf8Value [Primitive "a"; Primitive ""]) = None.
Proof.
  destruct (Fprint_text sample_Utf8Value
              [Primitive "a"; Undefined; Primitive "b"]) as [H1 _].
  destruct (Fprint_text sample_Utf8Value [Primitive "a"; Primitive ""])
    as [_ H2].
  split.
  - apply H1. repeat constructor; discriminate.
  - apply (H2 (Primitive "")); [| reflexivity].
    apply list_elem_of_further, list_elem_of_here.
Defined.

(** ** The callback slot *)

Lemma apply_calls_registries (ctx : m_ctx) (calls : list (list Value)) :
  modules (apply_calls ctx calls) = modules ctx ∧
  resolved (apply_calls ctx calls) = resolved ctx.
Proof.
  revert ctx. induction calls as [|args rest IH]; intros ctx; [done |].
  simpl. destruct (default Undefined (args !! 0%nat)); try apply IH.
  by destruct (IH {| m_ctx_cb := Some f; modules := modules ctx;
                     resolved := resolved ctx |}).
Qed.

(** X9. [V8Engine.cb] returns exactly when its first argument is a
    function (with no argument, or another value first, the assertion
    fails); it then puts that function in the slot of the context and
    leaves the registries of the context and everything else alone. *)
Theorem cb_returns_iff_function
    (ptr : Z) (args : list Value) (ctx : m_ctx) (w : World) :
  contexts w !! ptr = Some ctx →
  (Cpp.cb ptr args w = None ↔ registers args = false) ∧
  (∀ w', Cpp.cb ptr args w = Some (tt, w') →
     ∃ f rest ctx',
       args = FunctionValue f :: rest ∧
       w' = set_contexts (<[ptr := ctx']> (contexts w)) w ∧
       m_ctx_cb ctx' = Some f ∧
       modules ctx' = modules ctx ∧
       resolved ctx' = resolved ctx).
Proof.
  intros Hc. unfold Cpp.cb, bind, deref_ctx, registers. rewrite Hc.
  destruct args as [|[|f| |] rest]; simpl; try (split; [done | done]).
  split; [done |]. unfold store_ctx, modify. intros w' [= <-].
  by eexists f, rest, _.
Qed.

Lemma cb_returns_iff_function_witness :
  Cpp.cb 1 [] one_engine = None ∧
  Cpp.cb 1 [Primitive "f"] one_engine = None ∧
  Cpp.cb 1 [FunctionValue (Fn 1); Undefined] one_engine =
    Some (tt, world_with (Some (Fn 1))).
Proof.
  split; [| split].
  - apply (cb_returns_iff_function 1 [] new_ctx one_engine eq_refl).
    reflexivity.
  - apply (cb_returns_iff_function 1 [Primitive "f"] new_ctx one_engine
             eq_refl). reflexivity.
  - destruct (cb_returns_iff_function 1 [FunctionValue (Fn 1); Undefined]
                new_ctx one_engine eq_refl) as [_ H].
    vm_compute. reflexivity.
Defined.

(** X10. The Go [Send] returns the error of status 2, and changes
    nothing, when no callback is registered.  With a callback whose call
    passes functions only to [V8Engine.cb]: it returns no error when the
    call returns a value; it returns the error of status 3 when the call
    throws an exception with a message and a stack trace that are not
    empty; and it does not return when the call throws any other
    exception, a null pointer reaching [printf]. *)
Theorem Go_Send_error
    (v8 : V8) (e : Go.Engine) (msg : list Byte.byte) (ctx : m_ctx)
    (w : World) :
  contexts w !! Go.contextPtr e = Some ctx →
  (m_ctx_cb ctx = None →
   Go.Send v8 e msg w = Some (Some "expected 0, got 2", w)) ∧
  (∀ f, m_ctx_cb ctx = Some f →
     safe (Function_Call v8 f [ArrayBuffer msg]) = true →
     (∀ v, completion (Function_Call v8 f [ArrayBuffer msg]) = inl v →
        ∃ w', Go.Send v8 e msg w = Some (None, w')) ∧
     (∀ try_catch,
        completion (Function_Call v8 f [ArrayBuffer msg]) = inr try_catch →
        printable try_catch = true →
        ∃ w', Go.Send v8 e msg w = Some (Some "expected 0, got 3", w')) ∧
     (∀ try_catch,
        completion (Function_Call v8 f [ArrayBuffer msg]) = inr try_catch →
        printable try_catch = false →
        Go.Send v8 e msg w = None)).
Proof.
  intros Hc. unfold Go.Send, bind. rewrite (Send_run _ _ _ _ _ _ Hc).
  split.
  - by intros ->.
  - intros f -> Hs. cbv zeta. rewrite Nat2Z.id, firstn_all, Hs.
    split; [| split].
    + intros v ->. eexists. reflexivity.
    + intros try_catch -> ->. eexists. reflexivity.
    + by intros try_catch -> ->.
Qed.

Lemma Go_Send_error_witness :
  Go.Send sample_v8 the_engine [Byte.x01] one_engine =
    Some (Some "expected 0, got 2", one_engine) ∧
  (∃ w', Go.Send sample_v8 the_engine [Byte.x01] (world_with (Some (Fn 1))) =
         Some (None, w')) ∧
  (∃ w', Go.Send erroring_v8 the_engine [Byte.x01]
           (world_with (Some (Fn 5))) =
         Some (Some "expected 0, got 3", w')) ∧
  Go.Send sample_v8 the_engine [Byte.x01] (world_with (Some (Fn 2))) = None.
Proof.
  split; [| split; [| split]].
  - apply (Go_Send_error sample_v8 the_engine [Byte.x01] new_ctx one_engine
             eq_refl). reflexivity.
  - destruct (Go_Send_error sample_v8 the_engine [Byte.x01]
                {| m_ctx_cb := Some (Fn 1); modules := ∅; resolved := ∅ |}
                (world_with (Some (Fn 1))) eq_refl) as [_ H].
    destruct (H (Fn 1) eq_refl eq_refl) as [H0 _].
    exact (H0 _ eq_refl).
  - destruct (Go_Send_error erroring_v8 the_engine [Byte.x01]
                {| m_ctx_cb := Some (Fn 5); modules := ∅; resolved := ∅ |}
                (world_with (Some (Fn 5))) eq_refl) as [_ H].
    destruct (H (Fn 5) eq_refl eq_refl) as [_ [H3 _]].
    exact (H3 _ eq_refl eq_refl).
  - destruct (Go_Send_error sample_v8 the_engine [Byte.x01]
                {| m_ctx_cb := Some (Fn 2); modules := ∅; resolved := ∅ |}
                (world_with (Some (Fn 2))) eq_refl) as [_ H].
    destruct (H (Fn 2) eq_refl eq_refl) as [_ [_ Hnone]].
    exact (Hnone _ eq_refl eq_refl).
Defined.

(** X11. A callback that registers another function during its call
    replaces itself: the next [Send] calls the function registered last,
    with the new message, and not the old callback.  (Both calls pass
    functions only to [V8Engine.cb], and each returns a value or throws
    an exception with a message and a stack trace that are not empty.) *)
Theorem Send_after_reregistration
    (v8 : V8) (e : Go.Engine) (msg msg' : list Byte.byte) (ctx : m_ctx)
    (w : World) (f g : Function) (calls : list (list Value))
    (rest : list Value) :
  contexts w !! Go.contextPtr e = Some ctx →
  m_ctx_cb ctx = Some f →
  host_calls (Function_Call v8 f [ArrayBuffer msg]) =
    calls ++ [FunctionValue g :: rest] →
  forallb registers calls = true →
  sendable (Function_Call v8 f [ArrayBuffer msg]) = true →
  safe (Function_Call v8 g [ArrayBuffer msg']) = true →
  sendable (Function_Call v8 g [ArrayBuffer msg']) = true →
  ∃ err w1 err' w2,
    Go.Send v8 e msg w = Some (err, w1) ∧
    Go.Send v8 e msg' w1 = Some (err', w2) ∧
    contexts w1 !! Go.contextPtr e =
      Some (apply_calls ctx
              (host_calls (Function_Call v8 f [ArrayBuffer msg]))) ∧
    trace w2 = trace w ++ [EvCall f [ArrayBuffer msg];
                           EvCall g [ArrayBuffer msg']].
Proof.
  intros Hc Hf Hcalls Hr Hpf Hs Hpg.
  assert (Hsafe : safe (Function_Call v8 f [ArrayBuffer msg]) = true).
  { unfold safe. rewrite Hcalls, forallb_app, Hr. reflexivity. }
  set (ctx1 := apply_calls ctx (host_calls (Function_Call v8 f
                                              [ArrayBuffer msg]))).
  assert (Hg : m_ctx_cb ctx1 = Some g).
  { unfold ctx1. rewrite Hcalls. apply apply_calls_last. }
  assert (Hsend1 : ∃ st printed,
            Cpp.Send v8 (Go.contextPtr e) (Z.of_nat (length msg)) msg w =
              Some (st, world_after w (Go.contextPtr e) ctx1 printed
                          [EvCall f [ArrayBuffer msg]])).
  { rewrite (Send_run _ _ _ _ _ _ Hc), Hf. cbv zeta.
    rewrite Nat2Z.id, firstn_all, Hsafe. fold ctx1.
    unfold sendable in Hpf.
    destruct (completion (Function_Call v8 f [ArrayBuffer msg]));
      rewrite ?Hpf; eexists _, _; reflexivity. }
  destruct Hsend1 as (st & printed & Hsend1).
  set (w1 := world_after w (Go.contextPtr e) ctx1 printed
               [EvCall f [ArrayBuffer msg]]) in *.
  assert (Hc1 : contexts w1 !! Go.contextPtr e = Some ctx1).
  { unfold w1, world_after. simpl. apply lookup_insert_eq. }
  assert (Hsend2 : ∃ st' w2,
            Cpp.Send v8 (Go.contextPtr e) (Z.of_nat (length msg')) msg' w1 =
              Some (st', w2) ∧
            trace w2 = trace w1 ++ [EvCall g [ArrayBuffer msg']]).
  { rewrite (Send_run _ _ _ _ _ _ Hc1), Hg. cbv zeta.
    rewrite Nat2Z.id, firstn_all, Hs.
    unfold sendable in Hpg.
    destruct (completion (Function_Call v8 g [ArrayBuffer msg']));
      rewrite ?Hpg; eexists _, _; split; reflexivity. }
  destruct Hsend2 as (st' & w2 & Hsend2 & Htr).
  assert (Htr1 : trace w1 = trace w ++ [EvCall f [ArrayBuffer msg]])
    by reflexivity.
  exists (if negb (st =? 0)
          then Some ("expected 0, got " +:+ pretty st) else None), w1,
         (if negb (st' =? 0)
          then Some ("expected 0, got " +:+ pretty st') else None), w2.
  split; [| split; [| split]].
  - unfold Go.Send, bind. rewrite Hsend1. by destruct (negb (st =? 0)).
  - unfold Go.Send, bind. rewrite Hsend2. by destruct (negb (st' =? 0)).
  - exact Hc1.
  - by rewrite Htr, Htr1, <- app_assoc.
Qed.

Lemma Send_after_reregistration_witness :
  ∃ err w1 err' w2,
    Go.Send throwing_v8 the_engine [Byte.x01] (world_with (Some (Fn 3))) =
      Some (err, w1) ∧
    Go.Send throwing_v8 the_engine [Byte.x02] w1 = Some (err', w2) ∧
    trace w2 = [EvCall (Fn 3) [ArrayBuffer [Byte.x01]];
                EvCall (Fn 4) [ArrayBuffer [Byte.x02]]].
Proof.
  destruct (Send_after_reregistration throwing_v8 the_engine [Byte.x01]
              [Byte.x02]
              {| m_ctx_cb := Some (Fn 3); modules := ∅; resolved := ∅ |}
              (world_with (Some (Fn 3))) (Fn 3) (Fn 4) [] []
              eq_refl eq_refl eq_refl eq_refl eq_refl eq_refl eq_refl)
    as (err & w1 & err' & w2 & H1 & H2 & _ & Htr).
  exists err, w1, err', w2. split; [exact H1 |]. split; [exact H2 | exact Htr].
Defined.

(** X12. Whatever the callback does, a [Send] that returns has changed
    nothing but the callback slot of its own context, standard output and
    the trace: the registries of the context, the other contexts, the
    value handles and the resolver table are as before. *)
Theorem Send_frame
    (v8 : V8) (ptr length : Z) (data : list Byte.byte) (ctx : m_ctx)
    (w w' : World) (status : Z) :
  contexts w !! ptr = Some ctx →
  Cpp.Send v8 ptr length data w = Some (status, w') →
  ∃ ctx',
    contexts w' = <[ptr := ctx']> (contexts w) ∧
    modules ctx' = modules ctx ∧
    resolved ctx' = resolved ctx ∧
    values w' = values w ∧
    resolverFuncs w' = resolverFuncs w ∧
    nextResolverToken w' = nextResolverToken w ∧
    resolverTableLock w' = resolverTableLock w.
Proof.
  intros Hc. rewrite (Send_run _ _ _ _ _ _ Hc).
  destruct (m_ctx_cb ctx) as [f|].
  - cbv zeta. destruct (safe _); [| done].
    pose proof (apply_calls_registries ctx
      (host_calls (Function_Call v8 f
                     [ArrayBuffer (take (Z.to_nat length) data)])))
      as [Hm Hr].
    destruct (completion _) as [v|try_catch];
      [| destruct (printable try_catch); [| done]];
      intros [= <- <-]; eexists; by repeat split.
  - intros [= <- <-]. exists ctx. rewrite (insert_id _ _ _ Hc).
    by repeat split.
Qed.

Lemma Send_frame_witness :
  match Cpp.Send throwing_v8 1 1 [Byte.x01] (world_with (Some (Fn 3))) with
  | Some (_, w') =>
      ∃ ctx', contexts w' = {[ 1 := ctx' ]} ∧ modules ctx' = ∅ ∧
              values w' = ∅ ∧ resolverFuncs w' = ∅
  | None => False
  end.
Proof.
  destruct (Cpp.Send throwing_v8 1 1 [Byte.x01] (world_with (Some (Fn 3))))
    as [[status w']|] eqn:E; [| vm_compute in E; discriminate E].
  destruct (Send_frame throwing_v8 1 1 [Byte.x01]
              {| m_ctx_cb := Some (Fn 3); modules := ∅; resolved := ∅ |}
              (world_with (Some (Fn 3))) w' status eq_refl E)
    as (ctx' & Hctx & Hm & _ & Hv & Ht & _).
  exists ctx'. split; [| split; [exact Hm | split; [exact Hv | exact Ht]]].
  rewrite Hctx. simpl. apply insert_singleton_eq.
Defined.

(** ** Conversions to a C [int] *)

Lemma C_int_range (z : Z) : - 2147483648 ≤ C_int z < 2147483648.
Proof.
  unfold C_int, wrap. change (2 ^ (32 - 1)) with 2147483648.
  change (2 ^ 32) with 4294967296.
  pose proof (Z.mod_pos_bound (z + 2147483648) 4294967296). lia.
Qed.

Lemma C_int_zero_iff (z : Z) : C_int z = 0 ↔ z `mod` 4294967296 = 0.
Proof.
  unfold C_int, wrap. change (2 ^ (32 - 1)) with 2147483648.
  change (2 ^ 32) with 4294967296.
  split; intros H; Z.div_mod_to_equations; lia.
Qed.

(** X13. With a resolver registered under the token, [ResolveModule]
    calls it once, on the C-string readings of the specifier and the
    referrer, and hands back its name with its status converted to a C
    [int]: the status itself when it fits 32 bits, and 0 exactly when the
    status is a multiple of 2^32, so that such a failure status reads as
    success.  The lock is free again and the table unchanged. *)
Theorem ResolveModule_registered
    (specifier referrer : string) (token : Z)
    (resolve : ModuleResolverCallback) (w : World) :
  resolverTableLock w = false →
  resolverFuncs w !! token = Some (Some resolve) →
  let canon := (resolve (c_str specifier) (c_str referrer)).1 in
  let r := (resolve (c_str specifier) (c_str referrer)).2 in
  ∃ w',
    ResolveModule specifier referrer token w =
      Some ((Some canon, C_int r), w') ∧
    (- 2147483648 ≤ r < 2147483648 → C_int r = r) ∧
    (C_int r = 0 ↔ r `mod` 4294967296 = 0) ∧
    resolver_calls (trace w') =
      resolver_calls (trace w) ++ [(token, c_str specifier, c_str referrer)] ∧
    resolverFuncs w' = resolverFuncs w ∧
    resolverTableLock w' = false.
Proof.
  intros Hl Ht canon r.
  rewrite (ResolveModule_run _ _ _ _ Hl), Ht.
  eexists. split; [reflexivity |].
  split; [apply C_int_small |]. split; [apply C_int_zero_iff |].
  split; [| by split].
  simpl. by rewrite resolver_calls_app.
Qed.

Lemma ResolveModule_registered_witness :
  ∃ w',
    ResolveModule "dep.js" "main.js" 5 world_with_resolver =
      Some ((Some "dep.js", 0), w').
Proof.
  destruct (ResolveModule_registered "dep.js" "main.js" 5 wide_resolver
              world_with_resolver eq_refl eq_refl) as (w' & Hrun & _).
  exists w'. exact Hrun.
Defined.

(** ** Module loads *)

Lemma requests_run_failure token r registry name_s requests table
    status events :
  requests_run token r registry name_s requests table = (inl status, events) →
  status ≠ 0.
Proof.
  revert table events.
  induction requests as [|d rest IH]; intros table events; [done |].
  cbn [requests_run].
  destruct (resolve_answer r (c_str d) name_s) as [r0 r1] eqn:Ha.
  assert (Hnone : r0 = None → r1 ≠ 0).
  { intros ->. unfold resolve_answer in Ha. destruct r; [done |].
    by injection Ha as <-. }
  destruct r0 as [r0|].
  - destruct r1 as [|p|p]; try by intros [= <- _].
    destruct (registry !! c_str r0) as [m|]; [| by intros [= <- _]].
    destruct (requests_run token r registry name_s rest
                (<[c_str d := m]> table)) as [result events'] eqn:E.
    intros [= -> _]. by eapply IH.
  - specialize (Hnone eq_refl). destruct r1; [done | |]; by intros [= <- _].
Qed.

Lemma requests_run_resolved token r registry name_s requests table0
    table events :
  requests_run token r registry name_s requests table0 = (inr table, events) →
  (∀ d, d ∈ requests →
     ∃ resolve m,
       r = Some resolve ∧
       registry !! c_str (resolve (c_str d) (c_str name_s)).1 = Some m ∧
       table !! c_str d = Some m) ∧
  (∀ k, k ∉ (c_str <$> requests) → table !! k = table0 !! k) ∧
  resolver_calls events =
    (λ d, (token, c_str d, c_str name_s)) <$> requests.
Proof.
  revert table0 events.
  induction requests as [|d0 rest IH]; intros table0 events.
  - intros [= <- <-]. split; [| by split].
    intros d Hd. by apply elem_of_nil in Hd.
  - cbn [requests_run]. unfold resolve_answer, resolve_events.
    destruct r as [resolve|]; [| by intros [= ]].
    rewrite c_str_idemp.
    destruct (C_int (resolve (c_str d0) (c_str name_s)).2);
      try by intros [= ].
    destruct (registry !! c_str (resolve (c_str d0) (c_str name_s)).1)
      as [m|] eqn:Hm; [| by intros [= ]].
    destruct (requests_run token (Some resolve) registry name_s rest
                (<[c_str d0 := m]> table0)) as [result events'] eqn:E.
    intros [= -> <-].
    destruct (IH _ _ E) as (Hdeps & Hframe & Hcalls).
    split; [| split].
    + intros d Hd. apply elem_of_cons in Hd as [-> | Hd]; [| by apply Hdeps].
      destruct (decide (c_str d0 ∈ c_str <$> rest)) as [Hin | Hout].
      * apply list_elem_of_fmap in Hin as (d' & Heq & Hd').
        destruct (Hdeps d' Hd') as (resolve' & m' & [= <-] & Hreg & Htab).
        exists resolve, m'. by rewrite Heq.
      * exists resolve, m. split; [done |]. split; [done |].
        rewrite (Hframe _ Hout). apply lookup_insert_eq.
    + intros k Hk. rewrite fmap_cons in Hk.
      apply not_elem_of_cons in Hk as [Hne Hk].
      rewrite (Hframe _ Hk). by apply lookup_insert_ne.
    + cbn [resolver_calls omap list_omap]. fold (resolver_calls events'). by rewrite Hcalls.
Qed.

Lemma LoadModule_outcome_registry v8 token r ctx source_s name_s
    status ctx' printed events :
  LoadModule_outcome v8 token r ctx source_s name_s =
    Some (status, ctx', printed, events) →
  (ctx' = ctx ∧ status ≠ 0) ∨
  ∃ module table,
    CompileModule v8 (c_str source_s) (c_str name_s) = inl module ∧
    requests_run token r (modules ctx) name_s (GetModuleRequests module) ∅ =
      (inr table, events) ∧
    modules ctx' = <[c_str name_s := module]> (modules ctx) ∧
    resolved ctx' = <[GetIdentityHash module := table]> (resolved ctx) ∧
    (status = 0 ∨ status = 3 ∨ status = 4).
Proof.
  unfold LoadModule_outcome.
  destruct (CompileModule v8 (c_str source_s) (c_str name_s))
    as [module|try_catch];
    [| destruct (reportable try_catch); [| done];
       intros [= <- <- _ _]; by left].
  destruct (requests_run token r (modules ctx) name_s
              (GetModuleRequests module) ∅) as [[st|table] ev] eqn:E.
  - intros [= <- <- _ _]. left. split; [done |].
    by eapply requests_run_failure.
  - destruct (default false _).
    + destruct (safe (Module_Evaluate v8 module)); [| done].
      pose proof (apply_calls_registries
                    (register_module ctx (c_str name_s) module table)
                    (host_calls (Module_Evaluate v8 module))) as [Hm Hr].
      destruct (completion (Module_Evaluate v8 module)) as [v|try_catch];
        [| destruct (reportable try_catch); [| done]];
        intros [= <- <- _ <-]; right; exists module, table;
        repeat split; try done; auto.
    + intros [= <- <- _ <-]. right. exists module, table.
      repeat split; auto.
Qed.

Lemma Go_LoadModule_success
    (v8 : V8) (e : Go.Engine) (source origin : string)
    (resolve : option ModuleResolverCallback) (ctx : m_ctx) (w w' : World) :
  resolverTableLock w = false →
  contexts w !! Go.contextPtr e = Some ctx →
  - 2147483648 ≤ nextResolverToken w + 1 < 2147483648 →
  Go.LoadModule v8 e source origin resolve w = Some (0, w') →
  ∃ module table events ctx',
    CompileModule v8 (c_str source) (c_str origin) = inl module ∧
    requests_run (nextResolverToken w + 1) resolve (modules ctx) origin
      (GetModuleRequests module) ∅ = (inr table, events) ∧
    contexts w' !! Go.contextPtr e = Some ctx' ∧
    modules ctx' = <[c_str origin := module]> (modules ctx) ∧
    resolved ctx' = <[GetIdentityHash module := table]> (resolved ctx) ∧
    trace w' = trace w ++ call_events (nextResolverToken w + 1) events.
Proof.
  intros Hl Hc Hn Hrun.
  destruct (Go_LoadModule_returns _ _ _ _ _ _ _ _ _ Hl Hc Hrun)
    as (ctx' & printed & events & Ho & Hctx & _ & _ & Htr).
  rewrite Go_int_small in * by lia.
  rewrite C_int_small, lookup_insert_eq in Ho by done.
  apply LoadModule_outcome_registry in Ho
    as [[_ ?] | (module & table & Hcomp & Hreq & Hm & Hr & _)]; [done |].
  exists module, table, events, ctx'. repeat split; try done.
  rewrite Hctx. apply lookup_insert_eq.
Qed.

(** X14. A module load that returns 0 has registered the compiled module
    under its name, and has recorded for each import of the module the
    module that the registry held under the name the resolver gave: the
    resolution callback of the instantiation answers every import of the
    module with that module. *)
Theorem LoadModule_success_registers
    (v8 : V8) (e : Go.Engine) (source origin : string)
    (resolve : option ModuleResolverCallback) (ctx : m_ctx) (w w' : World) :
  resolverTableLock w = false →
  contexts w !! Go.contextPtr e = Some ctx →
  - 2147483648 ≤ nextResolverToken w + 1 < 2147483648 →
  Go.LoadModule v8 e source origin resolve w = Some (0, w') →
  ∃ module ctx',
    CompileModule v8 (c_str source) (c_str origin) = inl module ∧
    contexts w' !! Go.contextPtr e = Some ctx' ∧
    modules ctx' = <[c_str origin := module]> (modules ctx) ∧
    ∀ d, d ∈ GetModuleRequests module →
      ∃ resolve' m,
        resolve = Some resolve' ∧
        modules ctx !! c_str (resolve' (c_str d) (c_str origin)).1 = Some m ∧
        Cpp.ResolveCallback ctx' d module = Some m.
Proof.
  intros Hl Hc Hn Hrun.
  destruct (Go_LoadModule_success _ _ _ _ _ _ _ _ Hl Hc Hn Hrun)
    as (module & table & events & ctx' & Hcomp & Hreq & Hctx & Hm & Hr & _).
  exists module, ctx'. repeat split; try done.
  intros d Hd. apply requests_run_resolved in Hreq as (Hdeps & _ & _).
  destruct (Hdeps d Hd) as (resolve' & m & -> & Hreg & Htab).
  exists resolve', m. repeat split; try done.
  unfold Cpp.ResolveCallback. by rewrite Hr, lookup_insert_eq.
Qed.

Lemma LoadModule_success_registers_witness :
  ∃ w' ctx',
    Go.LoadModule sample_v8 the_engine "import 'dep.js';" "main.js"
      (Some dep_resolver) world_with_dep = Some (0, w') ∧
    contexts w' !! 1 = Some ctx' ∧
    Cpp.ResolveCallback ctx' "dep.js"
      {| GetIdentityHash := 7; GetModuleRequests := ["dep.js"];
         module_origin := "main.js" |} = Some dep_module.
Proof.
  destruct (Go.LoadModule sample_v8 the_engine "import 'dep.js';" "main.js"
              (Some dep_resolver) world_with_dep) as [[status w']|] eqn:E;
    [| vm_compute in E; discriminate E].
  assert (Hs : status = 0).
  { vm_compute in E. by injection E as <- _. }
  subst status.
  destruct (LoadModule_success_registers sample_v8 the_engine
              "import 'dep.js';" "main.js" (Some dep_resolver)
              {| m_ctx_cb := None; modules := {[ "dep.js" := dep_module ]};
                 resolved := {[ 11 := ∅ ]} |} world_with_dep w')
    as (module & ctx' & Hcomp & Hctx & _ & Hdeps);
    [reflexivity | reflexivity | simpl; lia | exact E |].
  injection Hcomp as <-.
  destruct (Hdeps "dep.js") as (resolve' & m & Hres & Hreg & Hcb);
    [apply list_elem_of_here |].
  injection Hres as <-.
  exists w', ctx'. split; [reflexivity |]. split; [exact Hctx |].
  rewrite Hcb, <- Hreg. reflexivity.
Defined.

(** X15. During a module load that returns 0 the resolver is called
    exactly once for each import of the module, in the order of the
    imports, with the name of the loading module as referrer. *)
Theorem LoadModule_success_resolver_calls
    (v8 : V8) (e : Go.Engine) (source origin : string)
    (resolve : option ModuleResolverCallback) (ctx : m_ctx) (w w' : World) :
  resolverTableLock w = false →
  contexts w !! Go.contextPtr e = Some ctx →
  - 2147483648 ≤ nextResolverToken w + 1 < 2147483648 →
  Go.LoadModule v8 e source origin resolve w = Some (0, w') →
  ∃ module,
    CompileModule v8 (c_str source) (c_str origin) = inl module ∧
    resolver_calls (trace w') =
      resolver_calls (trace w) ++
      ((λ d, (nextResolverToken w + 1, c_str d, c_str origin)) <$>
         GetModuleRequests module).
Proof.
  intros Hl Hc Hn Hrun.
  destruct (Go_LoadModule_success _ _ _ _ _ _ _ _ Hl Hc Hn Hrun)
    as (module & table & events & ctx' & Hcomp & Hreq & _ & _ & _ & Htr).
  exists module. split; [done |].
  apply requests_run_resolved in Hreq as (_ & _ & Hcalls).
  by rewrite Htr, resolver_calls_app, call_events_resolver_calls, Hcalls.
Qed.

Lemma LoadModule_success_resolver_calls_witness :
  ∃ w',
    Go.LoadModule sample_v8 the_engine "import 'dep.js';" "main.js"
      (Some dep_resolver) world_with_dep = Some (0, w') ∧
    resolver_calls (trace w') = [(1, "dep.js", "main.js")].
Proof.
  destruct (Go.LoadModule sample_v8 the_engine "import 'dep.js';" "main.js"
              (Some dep_resolver) world_with_dep) as [[status w']|] eqn:E;
    [| vm_compute in E; discriminate E].
  assert (Hs : status = 0).
  { vm_compute in E. by injection E as <- _. }
  subst status.
  destruct (LoadModule_success_resolver_calls sample_v8 the_engine
              "import 'dep.js';" "main.js" (Some dep_resolver)
              {| m_ctx_cb := None; modules := {[ "dep.js" := dep_module ]};
                 resolved := {[ 11 := ∅ ]} |} world_with_dep w')
    as (module & Hcomp & Hcalls);
    [reflexivity | reflexivity | simpl; lia | exact E |].
  injection Hcomp as <-.
  exists w'. split; [reflexivity |]. rewrite Hcalls. reflexivity.
Defined.

(** X16. The module is registered before it is instantiated: when the
    imports resolve but the instantiation fails, the load returns 3 and
    the module stays registered, with its resolution table; the same holds
    when the evaluation throws an exception whose message is not empty:
    the load prints the message and returns 4. *)
Theorem LoadModule_registers_before_linking
    (v8 : V8) (e : Go.Engine) (source origin : string)
    (resolve : option ModuleResolverCallback) (ctx : m_ctx) (w : World)
    (module : JSModule) (table : gmap string JSModule) :
  resolverTableLock w = false →
  contexts w !! Go.contextPtr e = Some ctx →
  - 2147483648 ≤ nextResolverToken w + 1 < 2147483648 →
  fits_C_int resolve →
  CompileModule v8 (c_str source) (c_str origin) = inl module →
  resolve_dependencies resolve (modules ctx) (c_str origin)
    (GetModuleRequests module) ∅ = Resolved table →
  let ctx' := register_module ctx (c_str origin) module table in
  (default false (InstantiateModule v8 module (Cpp.ResolveCallback ctx'))
     = false →
   ∃ w', Go.LoadModule v8 e source origin resolve w = Some (3, w') ∧
         contexts w' = <[Go.contextPtr e := ctx']> (contexts w)) ∧
  (default false (InstantiateModule v8 module (Cpp.ResolveCallback ctx'))
     = true →
   safe (Module_Evaluate v8 module) = true →
   ∀ try_catch,
     completion (Module_Evaluate v8 module) = inr try_catch →
     reportable try_catch = true →
     ∃ w' ctx'',
       Go.LoadModule v8 e source origin resolve w = Some (4, w') ∧
       contexts w' = <[Go.contextPtr e := ctx'']> (contexts w) ∧
       modules ctx'' = <[c_str origin := module]> (modules ctx) ∧
       stdout w' = stdout w ++ [msg (Cpp.ExceptionError try_catch)]).
Proof.
  intros Hl Hc Hn Hfit Hcomp Hres ctx'.
  rewrite (Go_LoadModule_run _ _ _ _ _ _ _ Hl Hc). cbv zeta.
  rewrite Go_int_small by lia.
  rewrite C_int_small, lookup_insert_eq by done.
  cbn [default from_option id]. change (id resolve) with resolve.
  unfold LoadModule_outcome. rewrite Hcomp.
  pose proof (requests_run_spec (nextResolverToken w + 1) resolve
                (modules ctx) origin (GetModuleRequests module) ∅ Hfit)
    as Hspec.
  rewrite Hres in Hspec.
  destruct (requests_run (nextResolverToken w + 1) resolve (modules ctx)
              origin (GetModuleRequests module) ∅) as [result events].
  cbn [fst] in Hspec. subst result. fold ctx'.
  split.
  - intros ->. eexists. split; reflexivity.
  - intros -> Hs try_catch Hx Hrep. rewrite Hs, Hx, Hrep.
    eexists _, _. split; [reflexivity |]. split; [reflexivity |].
    split; [| reflexivity].
    apply apply_calls_registries.
Qed.

Lemma LoadModule_registers_before_linking_witness :
  (∃ w' ctx',
     Go.LoadModule unlinkable_v8 the_engine "export const x = 1;" "a.js"
       None one_engine = Some (3, w') ∧
     contexts w' !! 1 = Some ctx' ∧
     is_Some (modules ctx' !! "a.js")) ∧
  (∃ w' ctx',
     Go.LoadModule throwing_v8 the_engine "export const x = 1;" "a.js"
       None one_engine = Some (4, w') ∧
     contexts w' !! 1 = Some ctx' ∧
     is_Some (modules ctx' !! "a.js")).
Proof.
  split.
  - destruct (LoadModule_registers_before_linking unlinkable_v8 the_engine
                "export const x = 1;" "a.js" None new_ctx one_engine
                {| GetIdentityHash := 11; GetModuleRequests := [];
                   module_origin := "a.js" |} ∅) as [H3 _];
      [reflexivity | reflexivity | simpl; lia | exact I | reflexivity
      | reflexivity |].
    destruct (H3 eq_refl) as (w' & Hrun & Hctx).
    eexists w', _. split; [exact Hrun |]. rewrite Hctx.
    split; [apply lookup_insert_eq |]. simpl. rewrite lookup_insert_eq.
    by eexists.
  - destruct (LoadModule_registers_before_linking throwing_v8 the_engine
                "export const x = 1;" "a.js" None new_ctx one_engine
                {| GetIdentityHash := 11; GetModuleRequests := [];
                   module_origin := "a.js" |} ∅) as [_ H4];
      [reflexivity | reflexivity | simpl; lia | exact I | reflexivity
      | reflexivity |].
    destruct (H4 eq_refl eq_refl _ eq_refl eq_refl)
      as (w' & ctx'' & Hrun & Hctx & Hm & _).
    exists w', ctx''. split; [exact Hrun |]. rewrite Hctx, Hm.
    split; [apply lookup_insert_eq |]. rewrite lookup_insert_eq.
    by eexists.
Defined.

(** X17. A module load that returns never removes a name from the
    registry of its context: the registry afterwards is the one before,
    or the one before with the loaded module put under its name
    (replacing a module loaded under that name earlier).  The other
    contexts and the value handles are untouched. *)
Theorem LoadModule_registry_grows
    (v8 : V8) (e : Go.Engine) (source origin : string)
    (resolve : option ModuleResolverCallback) (ctx : m_ctx) (w w' : World)
    (status : Z) :
  resolverTableLock w = false →
  contexts w !! Go.contextPtr e = Some ctx →
  Go.LoadModule v8 e source origin resolve w = Some (status, w') →
  ∃ ctx',
    contexts w' = <[Go.contextPtr e := ctx']> (contexts w) ∧
    values w' = values w ∧
    (modules ctx' = modules ctx ∨
     ∃ module, modules ctx' = <[c_str origin := module]> (modules ctx)) ∧
    (∀ name, is_Some (modules ctx !! name) → is_Some (modules ctx' !! name)) ∧
    (∀ name, name ≠ c_str origin →
             modules ctx' !! name = modules ctx !! name).
Proof.
  intros Hl Hc Hrun.
  destruct (Go_LoadModule_returns _ _ _ _ _ _ _ _ _ Hl Hc Hrun)
    as (ctx' & printed & events & Ho & Hctx & Hv & _ & _).
  exists ctx'. split; [exact Hctx |]. split; [exact Hv |].
  apply LoadModule_outcome_registry in Ho
    as [[-> _] | (module & table & _ & _ & Hm & _ & _)].
  - split; [by left |]. by split.
  - split; [right; by exists module |]. rewrite Hm. split.
    + intros name Hn. destruct (decide (c_str origin = name)) as [<- | Hne].
      * rewrite lookup_insert_eq. by eexists.
      * by rewrite lookup_insert_ne.
    + intros name Hne. by rewrite lookup_insert_ne.
Qed.

Lemma LoadModule_registry_grows_witness :
  ∃ status w' ctx',
    Go.LoadModule sample_v8 the_engine "export const y = 2;" "a.js" None
      world_with_dep = Some (status, w') ∧
    contexts w' !! 1 = Some ctx' ∧
    modules ctx' !! "dep.js" = Some dep_module.
Proof.
  destruct (Go.LoadModule sample_v8 the_engine "export const y = 2;" "a.js"
              None world_with_dep) as [[status w']|] eqn:E;
    [| vm_compute in E; discriminate E].
  destruct (LoadModule_registry_grows sample_v8 the_engine
              "export const y = 2;" "a.js" None
              {| m_ctx_cb := None; modules := {[ "dep.js" := dep_module ]};
                 resolved := {[ 11 := ∅ ]} |} world_with_dep w' status
              eq_refl eq_refl E)
    as (ctx' & Hctx & _ & _ & _ & Hother).
  exists status, w', ctx'. split; [reflexivity |]. rewrite Hctx.
  split; [apply lookup_insert_eq |].
  rewrite (Hother "dep.js"); [reflexivity | discriminate].
Defined.

(** X18. A module without imports is loaded without consulting the
    resolver table or any resolver, whatever resolver is passed (none
    included): the only events are the store and the delete of the token,
    the status is 0, 3 or 4, and the module is registered.  (The
    evaluation of the module passes functions only to [V8Engine.cb], and
    an exception that it throws has a message that is not empty.) *)
Theorem LoadModule_without_imports
    (v8 : V8) (e : Go.Engine) (source origin : string)
    (resolve : option ModuleResolverCallback) (ctx : m_ctx) (w : World)
    (module : JSModule) :
  resolverTableLock w = false →
  contexts w !! Go.contextPtr e = Some ctx →
  safe (Module_Evaluate v8 module) = true →
  (∀ try_catch,
     completion (Module_Evaluate v8 module) = inr try_catch →
     reportable try_catch = true) →
  CompileModule v8 (c_str source) (c_str origin) = inl module →
  GetModuleRequests module = [] →
  ∃ status w' ctx',
    Go.LoadModule v8 e source origin resolve w = Some (status, w') ∧
    (status = 0 ∨ status = 3 ∨ status = 4) ∧
    trace w' =
      trace w ++ call_events (Go_int (nextResolverToken w + 1)) [] ∧
    contexts w' = <[Go.contextPtr e := ctx']> (contexts w) ∧
    modules ctx' = <[c_str origin := module]> (modules ctx).
Proof.
  intros Hl Hc Hs Hrep Hcomp Hreq.
  rewrite (Go_LoadModule_run _ _ _ _ _ _ _ Hl Hc). cbv zeta.
  unfold LoadModule_outcome. rewrite Hcomp, Hreq. cbn [requests_run].
  destruct (default false _).
  - rewrite Hs.
    pose proof (apply_calls_registries
                  (register_module ctx (c_str origin) module ∅)
                  (host_calls (Module_Evaluate v8 module))) as [Hm _].
    destruct (completion (Module_Evaluate v8 module)) as [v|try_catch];
      [| rewrite (Hrep try_catch eq_refl)];
      eexists _, _, _; (split; [reflexivity |]); repeat split; auto.
  - eexists _, _, _. split; [reflexivity |]. repeat split; auto.
Qed.

Lemma LoadModule_without_imports_witness :
  ∃ status w' ctx',
    Go.LoadModule sample_v8 the_engine "export const x = 1;" "a.js" None
      one_engine = Some (status, w') ∧
    trace w' = call_events 1 [] ∧
    contexts w' !! 1 = Some ctx' ∧
    is_Some (modules ctx' !! "a.js").
Proof.
  destruct (LoadModule_without_imports sample_v8 the_engine
              "export const x = 1;" "a.js" None new_ctx one_engine
              {| GetIdentityHash := 11; GetModuleRequests := [];
                 module_origin := "a.js" |})
    as (status & w' & ctx' & Hrun & _ & Htr & Hctx & Hm);
    [reflexivity | reflexivity | reflexivity | discriminate | reflexivity
    | reflexivity |].
  exists status, w', ctx'. split; [exact Hrun |]. split; [exact Htr |].
  rewrite Hctx, Hm. split; [apply lookup_insert_eq |].
  rewrite lookup_insert_eq. by eexists.
Defined.

(** X19. The token is passed to the C++ side as a C [int].  Once the
    counter has passed the largest C [int], the token that comes back to
    [ResolveModule] is not the one under which the resolver was stored:
    if the table has nothing under the converted token, a load of a module
    with an import returns 1 without calling the resolver that was passed,
    and registers nothing. *)
Theorem LoadModule_token_beyond_C_int
    (v8 : V8) (e : Go.Engine) (source origin : string)
    (resolve : option ModuleResolverCallback) (ctx : m_ctx) (w : World)
    (module : JSModule) (dependency : string) (rest : list string) :
  resolverTableLock w = false →
  contexts w !! Go.contextPtr e = Some ctx →
  2147483648 ≤ nextResolverToken w + 1 < 9223372036854775808 →
  resolverFuncs w !! C_int (nextResolverToken w + 1) = None →
  CompileModule v8 (c_str source) (c_str origin) = inl module →
  GetModuleRequests module = dependency :: rest →
  ∃ w',
    Go.LoadModule v8 e source origin resolve w = Some (1, w') ∧
    resolver_calls (trace w') = resolver_calls (trace w) ∧
    contexts w' = contexts w.
Proof.
  intros Hl Hc Hn Ht Hcomp Hreq.
  rewrite (Go_LoadModule_run _ _ _ _ _ _ _ Hl Hc). cbv zeta.
  rewrite Go_int_small by lia.
  pose proof (C_int_range (nextResolverToken w + 1)) as Hr.
  rewrite lookup_insert_ne, Ht by lia.
  unfold LoadModule_outcome. rewrite Hcomp, Hreq.
  eexists. split; [reflexivity |]. simpl.
  split; [| by apply insert_id].
  rewrite resolver_calls_app. cbn. by rewrite app_nil_r.
Qed.

Lemma LoadModule_token_beyond_C_int_witness :
  ∃ w',
    Go.LoadModule sample_v8 the_engine "import 'dep.js';" "main.js"
      (Some dep_resolver) world_at_int_max = Some (1, w') ∧
    resolver_calls (trace w') = [].
Proof.
  destruct (LoadModule_token_beyond_C_int sample_v8 the_engine
              "import 'dep.js';" "main.js" (Some dep_resolver)
              {| m_ctx_cb := None; modules := {[ "dep.js" := dep_module ]};
                 resolved := {[ 11 := ∅ ]} |} world_at_int_max
              {| GetIdentityHash := 7; GetModuleRequests := ["dep.js"];
                 module_origin := "main.js" |} "dep.js" [])
    as (w' & Hrun & Hcalls & _);
    [reflexivity | reflexivity | simpl; lia | reflexivity | reflexivity
    | reflexivity |].
  exists w'. split; [exact Hrun | exact Hcalls].
Defined.

(** X20. A module whose evaluation throws a value with an empty string
    conversion (as [throw ''] does) makes [LoadModule] pass a null
    pointer to [printf] under ["%s"]: the load does not return status
    4, it does not return at all. *)
Theorem LoadModule_empty_exception
    (v8 : V8) (e : Go.Engine) (source origin : string)
    (resolve : option ModuleResolverCallback) (ctx : m_ctx) (w : World)
    (module : JSModule) (try_catch : TryCatch) :
  resolverTableLock w = false →
  contexts w !! Go.contextPtr e = Some ctx →
  CompileModule v8 (c_str source) (c_str origin) = inl module →
  GetModuleRequests module = [] →
  default false
    (InstantiateModule v8 module
       (Cpp.ResolveCallback (register_module ctx (c_str origin) module ∅)))
    = true →
  safe (Module_Evaluate v8 module) = true →
  completion (Module_Evaluate v8 module) = inr try_catch →
  HasTerminated try_catch = false →
  Exception try_catch = "" →
  Go.LoadModule v8 e source origin resolve w = None.
Proof.
  intros Hl Hc Hcomp Hreq Hinst Hs Hx Ht He.
  rewrite (Go_LoadModule_run _ _ _ _ _ _ _ Hl Hc). cbv zeta.
  unfold LoadModule_outcome. rewrite Hcomp, Hreq. cbn [requests_run].
  rewrite Hinst, Hs, Hx.
  unfold reportable, Cpp.ExceptionError. rewrite Ht. cbn [msg].
  by rewrite He.
Qed.

Lemma LoadModule_empty_exception_witness :
  Go.LoadModule silent_v8 the_engine "throw '';" "a.js" None one_engine =
    None.
Proof.
  exact (LoadModule_empty_exception silent_v8 the_engine "throw '';" "a.js"
           None new_ctx one_engine
           {| GetIdentityHash := 11; GetModuleRequests := [];
              module_origin := "a.js" |} _
           eq_refl eq_refl eq_refl eq_refl eq_refl eq_refl eq_refl eq_refl
           eq_refl).
Defined.
